(** * ts-remove-unused: usage classification and the removal driver

    A shallow embedding of [removeUnusedExport] (the current driver) and of
    [removeExport] (the earlier, count-based driver) together with the
    properties their specification states about them.

    The TypeScript compiler API is an external collaborator.  Syntax trees,
    the reference index, module resolution and the comment scanner are
    therefore taken as data and as capability records; everything in the
    repository's own files is transcribed function by function. *)

From Stdlib Require Import ZArith String Ascii List Bool Lia.
From stdpp Require Import gmap strings list.
Import ListNotations.

Local Open Scope string_scope.
Local Open Scope list_scope.
Local Open Scope Z_scope.

(* ===================================================================== *)
(** ** Results of fallible, possibly diverging code *)
(* ===================================================================== *)

(** [Throw] is a JavaScript exception; [OutOfFuel] marks a [while] loop that
    has not finished within the fuel it was given. *)
Inductive Result (A : Type) : Type :=
| Ok (a : A)
| Throw (msg : string)
| OutOfFuel.

Arguments Ok {A} a.
Arguments Throw {A} msg.
Arguments OutOfFuel {A}.

#[global] Instance Result_bind : MBind Result := λ A B k r,
  match r with
  | Ok a => k a
  | Throw msg => Throw msg
  | OutOfFuel => OutOfFuel
  end.

(* ===================================================================== *)
(** ** JavaScript strings *)
(* ===================================================================== *)

Module Js.

Definition len (s : string) : Z := Z.of_nat (String.length s).

(** The index normalisation of [String.prototype.slice]: a negative index
    counts from the end, and the result is clamped to [0, len]. *)
Definition clamp (n : Z) (i : Z) : Z :=
  if i <? 0 then Z.max (n + i) 0 else Z.min i n.

(** [s.slice(b, e)] *)
Definition slice (s : string) (b e : Z) : string :=
  let from := clamp (len s) b in
  let to := clamp (len s) e in
  String.substring (Z.to_nat from) (Z.to_nat (to - from)) s.

(** [s.slice(b)] *)
Definition sliceFrom (s : string) (b : Z) : string := slice s b (len s).

(** [s.indexOf(t)], [-1] when [t] does not occur. *)
Definition indexOf (s t : string) : Z :=
  match String.index 0%nat t s with
  | Some i => Z.of_nat i
  | None => -1
  end.

(** [s.includes(t)] *)
Definition includes (s t : string) : bool :=
  match String.index 0%nat t s with
  | Some _ => true
  | None => false
  end.

(** [xs.join(sep)] *)
Fixpoint join (sep : string) (xs : list string) : string :=
  match xs with
  | [] => ""
  | [x] => x
  | x :: rest => x +:+ sep +:+ join sep rest
  end.

Definition isSpace (c : ascii) : bool :=
  match c with
  | " "%char | "009"%char | "010"%char | "011"%char | "012"%char | "013"%char => true
  | _ => false
  end.

Fixpoint trimStart (s : string) : string :=
  match s with
  | String c rest => if isSpace c then trimStart rest else s
  | EmptyString => EmptyString
  end.

Fixpoint rev (s acc : string) : string :=
  match s with
  | String c rest => rev rest (String c acc)
  | EmptyString => acc
  end.

(** [s.trim()] *)
Definition trim (s : string) : string :=
  rev (trimStart (rev (trimStart s) "")) "".

(** Truthiness of a string: only the empty string is falsy. *)
Definition truthy (s : string) : bool :=
  match s with
  | EmptyString => false
  | _ => true
  end.

End Js.

(* ===================================================================== *)
(** ** Syntax trees of the TypeScript compiler *)
(* ===================================================================== *)

Inductive SyntaxKind : Set :=
| SourceFileKind
| VariableStatement | VariableDeclarationList | VariableDeclaration
| FunctionDeclaration | InterfaceDeclaration | TypeAliasDeclaration
| ClassDeclaration | ExportAssignment | ExportDeclaration
| NamedExports | NamespaceExport | ExportSpecifier
| ModuleDeclaration | ModuleBlock | Block | ExpressionStatement
| Identifier | StringLiteral | NumericLiteral | SyntaxList | JSDoc
| ExportKeyword | DefaultKeyword | AsyncKeyword | DeclareKeyword
| AbstractKeyword | ConstKeyword | FunctionKeyword | ClassKeyword
| InterfaceKeyword | TypeKeyword | FromKeyword
| OpenParenToken | CloseParenToken | OpenBraceToken | CloseBraceToken
| CommaToken | SemicolonToken | EqualsToken | AsteriskToken | EndOfFileToken.

#[global] Instance SyntaxKind_eq_dec : EqDecision SyntaxKind.
Proof. solve_decision. Defined.

Definition isKind (k k' : SyntaxKind) : bool := bool_decide (k = k').

(** A node of the compiler's tree.  [pos] is [getFullStart()] (leading trivia
    included), [start] is [getStart()], [end_] is [getEnd()]; [text] is the
    [text] property of a literal or identifier.  [exportClause] and
    [moduleSpecifier] are the properties of an export declaration.
    [forEachChild] lists the children [ts.forEachChild] visits, in order;
    [getChildren] lists what [node.getChildren()] returns, tokens and
    [SyntaxList] wrappers included. *)
Unset Elimination Schemes.
Inductive Node : Type := mkNode {
  kind : SyntaxKind;
  pos : Z;
  start : Z;
  end_ : Z;
  text : string;
  exportClause : option Node;
  moduleSpecifier : option Node;
  forEachChild : list Node;
  getChildren : list Node;
}.
Set Elimination Schemes.

(** Induction along [forEachChild], the only direction the visitors of the
    program recurse in. *)
Section NodeInduction.
Variable P : Node → Prop.
Hypothesis step : ∀ n, Forall P (forEachChild n) → P n.

Fixpoint Node_ind (n : Node) : P n :=
  match n as n0 return (Forall P (forEachChild n0) → P n0) → P n0 with
  | mkNode k p s e t ec ms cs gs => fun st =>
      st ((fix all (l : list Node) : Forall P l :=
             match l with
             | [] => @List.Forall_nil _ P
             | c :: l' => @List.Forall_cons _ P c l' (Node_ind c) (all l')
             end) cs)
  end (step n).
End NodeInduction.

Definition getFullStart (n : Node) : Z := pos n.
Definition getStart (n : Node) : Z := start n.
Definition getEnd (n : Node) : Z := end_ n.
Definition getFullWidth (n : Node) : Z := end_ n - pos n.
Definition getWidth (n : Node) : Z := getEnd n - getStart n.

(** [NamedExports.elements]: exactly the children [forEachChild] visits. *)
Definition elements (n : Node) : list Node := forEachChild n.

Record SourceFile : Type := mkSourceFile {
  fileName : string;
  getFullText : string;
  sourceNode : Node;
}.

(** [node.getText()] within its source file. *)
Definition getText (sf : SourceFile) (n : Node) : string :=
  Js.slice (getFullText sf) (getStart n) (getEnd n).

(** A node together with its chain of parents, nearest first: the embedding
    of the [parent] pointers. *)
Record Located : Type := mkLocated {
  self : Node;
  ancestors : list Node;
}.

(** [node.parent] and [node.parent.parent]; reading a property of
    [undefined] throws a [TypeError]. *)
Definition parent (c : Located) : Result Node :=
  match ancestors c with
  | p :: _ => Ok p
  | [] => Throw "TypeError"
  end.

Definition grandParent (c : Located) : Result Node :=
  match ancestors c with
  | _ :: g :: _ => Ok g
  | _ => Throw "TypeError"
  end.

(** [nodes.forEach(visit)] for a visitor that threads a state and may throw;
    the visitors of the program return [undefined], so [ts.forEachChild]
    never stops early. *)
Fixpoint forEachM {S : Type} (visit : Node → S → Result S)
    (children : list Node) (s : S) : Result S :=
  match children with
  | [] => Ok s
  | c :: rest => s' ← visit c s; forEachM visit rest s'
  end.

(** First [Some] among the results of [f] on a list, left to right. *)
Fixpoint firstSome {A : Type} (f : Node → option A) (l : list Node) : option A :=
  match l with
  | [] => None
  | c :: rest =>
      match f c with
      | Some r => Some r
      | None => firstSome f rest
      end
  end.

(* ===================================================================== *)
(** ** The reference index, the file store and the services *)
(* ===================================================================== *)

Record TextSpan : Type := mkTextSpan {
  span_start : Z;
  span_length : Z;
}.

Record ReferenceEntry : Type := mkReferenceEntry {
  entryFileName : string;
  textSpan : TextSpan;
}.

Record DefinitionInfo : Type := mkDefinitionInfo {
  definitionFileName : string;
}.

(** [ts.ReferencedSymbol]: a definition and the occurrences recorded
    against it. *)
Record ReferencedSymbol : Type := mkReferencedSymbol {
  definition : DefinitionInfo;
  references : list ReferenceEntry;
}.

Record TextChange : Type := mkTextChange {
  newText : string;
  span : TextSpan;
}.

(** Modelled from the spec: [FileService] (FileService.js is not among the
    sources).  The file store reads the current full text of a path, writes
    a new full text, deletes a path and tests existence, each immediately
    visible to the next read.  Reading a path that is not stored yields the
    empty text. *)
Module FileService.
Abbreviation t := (gmap string string).

Definition get (fs : t) (file : string) : string := default "" (fs !! file).
Definition set (fs : t) (file : string) (content : string) : t :=
  <[file := content]> fs.
Definition delete (fs : t) (file : string) : t := base.delete file fs.
Definition exists_ (fs : t) (file : string) : bool :=
  bool_decide (is_Some (fs !! file)).
End FileService.

(** [ts.Program], as far as the program uses it. *)
Record Program : Type := mkProgram {
  getSourceFile : string → option SourceFile;
}.

(** [ts.LanguageService].  Its host reads every file through the file
    store, so what it answers is a function of the store's contents. *)
Record LanguageService : Type := mkLanguageService {
  getProgram : FileService.t → option Program;
  service_findReferences :
    FileService.t → string → Z → option (list ReferencedSymbol);
}.

Record CommentRange : Type := mkCommentRange {
  range_pos : Z;
  range_end : Z;
}.

(** The functions of the [typescript] module the program calls directly. *)
Record TypeScript : Type := mkTypeScript {
  getLeadingCommentRanges : string → Z → option (list CommentRange);
  (** [ts.resolveModuleName(specifier, file, options, host).resolvedModule
      ?.resolvedFileName], the host reading the file store. *)
  resolveModuleName : string → string → Program → FileService.t → option string;
  (** [ts.createSourceFile(name, text, languageVersion)] *)
  createSourceFile : string → string → SourceFile;
  (** [ts.createPrinter().printFile(file)] *)
  printFile : SourceFile → string;
}.

(** The fix identifiers of applyCodeFix.js. *)
Inductive FixId : Set := fixIdDelete | fixIdDeleteImports.

(** The calls the driver makes on its [EditTracker], in the order made. *)
Inductive TrackerEvent : Type :=
| TrackStart (file : string) (content : string)
| TrackEnd (file : string)
| TrackDelete (file : string)
| TrackRemoveExport (file : string) (position : Z) (code : string).

(** The driver mutates the file store and notifies the tracker; both
    survive an exception.  [M] threads them under a [Result]. *)
Record World : Type := mkWorld {
  store : FileService.t;
  log : list TrackerEvent;
}.

Definition M (A : Type) : Type := World → Result A * World.

#[global] Instance M_ret : MRet M := λ A a w, (Ok a, w).
#[global] Instance M_bind : MBind M := λ A B k m w,
  match m w with
  | (Ok a, w') => k a w'
  | (Throw msg, w') => (Throw msg, w')
  | (OutOfFuel, w') => (OutOfFuel, w')
  end.

Definition lift {A : Type} (r : Result A) : M A := λ w, (r, w).
Definition throw {A : Type} (msg : string) : M A := lift (Throw msg).
Definition getStore : M FileService.t := λ w, (Ok (store w), w).
Definition setFile (file content : string) : M unit :=
  λ w, (Ok tt, mkWorld (FileService.set (store w) file content) (log w)).
Definition deleteFile (file : string) : M unit :=
  λ w, (Ok tt, mkWorld (FileService.delete (store w) file) (log w)).
Definition track (e : TrackerEvent) : M unit :=
  λ w, (Ok tt, mkWorld (store w) (log w ++ [e])).

(** Modelled from the spec: [applyTextChanges] (applyTextChanges.js is not
    among the sources).  A text change is a (span, replacement) pair applied
    against the file's current full text; the changes of one batch are
    ordered and do not overlap, so each is applied at its own span of the
    original text, left to right. *)
Fixpoint applyFrom (content : string) (currentPos : Z)
    (changes : list TextChange) : string :=
  match changes with
  | [] => Js.sliceFrom content currentPos
  | change :: rest =>
      Js.slice content currentPos (span_start (span change))
      +:+ newText change
      +:+ applyFrom content
            (span_start (span change) + span_length (span change)) rest
  end.

Definition applyTextChanges (content : string) (changes : list TextChange) : string :=
  applyFrom content 0 changes.

(* ===================================================================== *)
(** ** The current driver: [removeUnusedExport] *)
(* ===================================================================== *)

Module RemoveUnusedExport.

Section Core.
Context (ts : TypeScript).
(** [applyCodeFix({ fixId, fileName, languageService })] (applyCodeFix.js is
    not among the sources): one round of the service's automated fix,
    returning the updated content of the file. *)
Context (applyCodeFix : FixId → string → LanguageService → FileService.t → string).

(** The visitor of [findFirstNodeOfKind]. *)
Fixpoint findFirstVisitor (k : SyntaxKind) (node : Node) : option Node :=
  match node with
  | mkNode k' _ _ _ _ _ _ children _ =>
      if isKind k' k then Some node
      else firstSome (findFirstVisitor k) children
  end.

Definition findFirstNodeOfKind (root : Node) (k : SyntaxKind) : option Node :=
  firstSome (findFirstVisitor k) (forEachChild root).

Definition IGNORE_COMMENT : string := "ts-remove-unused-skip".

Definition getLeadingComment (sf : SourceFile) (node : Node) : string :=
  let fullText := getFullText sf in
  match getLeadingCommentRanges ts fullText (getFullStart node) with
  | None => ""
  | Some ranges =>
      Js.join "" (map (λ r, Js.slice fullText (range_pos r) (range_end r)) ranges)
  end.

Definition isDeclarationKind (k : SyntaxKind) : bool :=
  isKind k VariableStatement || isKind k FunctionDeclaration
  || isKind k InterfaceDeclaration || isKind k TypeAliasDeclaration
  || isKind k ClassDeclaration.

Definition isTarget (node : Node) : bool :=
  if isKind (kind node) ExportAssignment || isKind (kind node) ExportSpecifier
  then true
  else if isDeclarationKind (kind node) then
    match findFirstNodeOfKind node ExportKeyword with
    | Some _ => true
    | None => false
    end
  else false.

Definition findReferences (ls : LanguageService) (fs : FileService.t)
    (sf : SourceFile) (node : Node) : Result (option (list ReferencedSymbol)) :=
  if isKind (kind node) VariableStatement then
    match findFirstNodeOfKind node VariableDeclaration with
    | None => Ok None
    | Some variableDeclaration =>
        Ok (service_findReferences ls fs (fileName sf) (getStart variableDeclaration))
    end
  else if isKind (kind node) FunctionDeclaration
       || isKind (kind node) InterfaceDeclaration
       || isKind (kind node) TypeAliasDeclaration
       || isKind (kind node) ExportSpecifier
       || isKind (kind node) ClassDeclaration then
    Ok (service_findReferences ls fs (fileName sf) (getStart node))
  else if isKind (kind node) ExportAssignment then
    match List.find (λ n, isKind (kind n) DefaultKeyword) (getChildren node) with
    | None => Ok None
    | Some defaultKeyword =>
        Ok (service_findReferences ls fs (fileName sf) (getStart defaultKeyword))
    end
  else Throw "unexpected node type".

(** [moduleSpecifier && ts.isStringLiteral(moduleSpecifier)] of an export
    declaration: the literal when both hold. *)
Definition stringLiteralSpecifier (exportDeclaration : Node) : option Node :=
  match moduleSpecifier exportDeclaration with
  | Some m => if isKind (kind m) StringLiteral then Some m else None
  | None => None
  end.

(** The visitor of [getReexportInFile]. *)
Fixpoint reexportVisitor (anc : list Node) (node : Node)
    (result : list Located) : Result (list Located) :=
  match node with
  | mkNode k _ _ _ _ _ _ children _ =>
      if isKind k ExportSpecifier then
        g ← grandParent (mkLocated node anc);
        match stringLiteralSpecifier g with
        | Some _ => Ok (result ++ [mkLocated node anc])
        | None => Ok result
        end
      else forEachM (reexportVisitor (node :: anc)) children result
  end.

Definition getReexportInFile (file : SourceFile) : Result (list Located) :=
  forEachM (reexportVisitor [sourceNode file])
           (forEachChild (sourceNode file)) [].

Definition getFileFromModuleSpecifierText (specifier file : string)
    (program : Program) (fileService : FileService.t) : option string :=
  resolveModuleName ts specifier file program fileService.

(** [Object.fromEntries(references.map((v) => [v.definition.fileName, v]))]:
    a later entry for the same file replaces an earlier one.  (File names
    are paths, never names of [Object.prototype] properties.) *)
Definition referencesKeyValue (refs : list ReferencedSymbol)
    : gmap string ReferencedSymbol :=
  foldl (λ m v, <[definitionFileName (definition v) := v]> m) ∅ refs.

Definition matchesSpan (first : ReferenceEntry) (r : Located) : bool :=
  let start := span_start (textSpan first) in
  let end' := start + span_length (textSpan first) in
  bool_decide (getStart (self r) = start) && bool_decide (getEnd (self r) = end').

(** The [while (specifier)] loop of [getAncestorFiles]; [None] as result
    is the [null] the source returns. *)
Fixpoint ancestorLoop (fuel : nat) (kv : gmap string ReferencedSymbol)
    (fileService : FileService.t) (program : Program)
    (specifier : option string) (currentFile : string)
    (result : gset string) : Result (option (gset string)) :=
  match specifier with
  | None => Ok (Some result)
  | Some sp =>
      if negb (Js.truthy sp) then Ok (Some result) else
      match fuel with
      | O => OutOfFuel
      | S fuel' =>
          match getFileFromModuleSpecifierText sp currentFile program fileService with
          | None => Ok None
          | Some origin =>
              if negb (Js.truthy origin) then Ok None else
              let result := {[origin]} ∪ result in
              match kv !! origin with
              | None => Ok None
              | Some referencedSymbol =>
                  match getSourceFile program origin with
                  | None => Ok None
                  | Some sourceFile =>
                      reexportSpecifiers ← getReexportInFile sourceFile;
                      let reexportNode :=
                        match references referencedSymbol with
                        | firstReferencedSymbol :: _ =>
                            List.find (matchesSpan firstReferencedSymbol)
                                      reexportSpecifiers
                        | [] => None
                        end in
                      match reexportNode with
                      | Some r =>
                          g ← grandParent r;
                          match stringLiteralSpecifier g with
                          | None => Throw "unexpected reexportNode"
                          | Some m =>
                              ancestorLoop fuel' kv fileService program
                                           (Some (text m)) origin result
                          end
                      | None =>
                          ancestorLoop fuel' kv fileService program
                                       None origin result
                      end
                  end
              end
          end
      end
  end.

Definition getAncestorFiles (fuel : nat) (node : Located)
    (refs : list ReferencedSymbol) (fileService : FileService.t)
    (program : Program) (file : string) : Result (option (gset string)) :=
  g ← grandParent node;
  match stringLiteralSpecifier g with
  | None => Ok None
  | Some m =>
      ancestorLoop fuel (referencesKeyValue refs) fileService program
                   (Some (text m)) file ∅
  end.

(** What [getUnusedExports] accumulates: the unused candidates, in
    document order, and the file's overall-used flag. *)
Record Scan : Type := mkScan {
  nodes : list Located;
  isUsed : bool;
}.

Definition markUsed (st : Scan) : Scan := mkScan (nodes st) true.
Definition pushNode (st : Scan) (c : Located) : Scan :=
  mkScan (nodes st ++ [c]) (isUsed st).

(** [references.filter(other file).flatMap((v) => v.references)] *)
Definition otherFileReferences (file : string)
    (refs : list ReferencedSymbol) : list ReferenceEntry :=
  flat_map references
    (List.filter
       (λ v, bool_decide (definitionFileName (definition v) ≠ file))
       refs).

(** The same with the re-export ancestry excluded as well. *)
Definition nonAncestorReferences (file : string) (ancestors : gset string)
    (refs : list ReferencedSymbol) : list ReferenceEntry :=
  flat_map references
    (List.filter
       (λ v, bool_decide (definitionFileName (definition v) ≠ file)
             && bool_decide (definitionFileName (definition v) ∉ ancestors))
       refs).

Definition tally (st : Scan) (c : Located) (count : nat) : Scan :=
  if (0 <? count)%nat then markUsed st else pushNode st c.

(** [ts.isExportDeclaration(node) && !node.exportClause]: the special
    case for [export * from './foo';]. *)
Definition isWildcard (node : Node) : bool :=
  isKind (kind node) ExportDeclaration
  && negb (bool_decide (is_Some (exportClause node))).

(** The [isTarget(node)] branch of the visitor of [getUnusedExports], for
    the node [self c] met below the parents [ancestors c]. *)
Definition visitTarget (fuel : nat) (ls : LanguageService) (fs : FileService.t)
    (program : Program) (sf : SourceFile) (c : Located) (st : Scan) : Result Scan :=
  if Js.includes (getLeadingComment sf (self c)) IGNORE_COMMENT then
    Ok (markUsed st)
  else
    found ← findReferences ls fs sf (self c);
    match found with
    | None => Ok st
    | Some refs =>
        reexport ←
          (if isKind (kind (self c)) ExportSpecifier then
             g ← grandParent c;
             Ok (bool_decide (is_Some (moduleSpecifier g)))
           else Ok false);
        if reexport : bool then
          ancestors ← getAncestorFiles fuel c refs fs program (fileName sf);
          match ancestors with
          | None => Ok (markUsed st)
          | Some ancestors =>
              Ok (tally st c
                    (length (nonAncestorReferences (fileName sf) ancestors refs)))
          end
        else
          Ok (tally st c (length (otherFileReferences (fileName sf) refs)))
    end.

(** The visitor of [getUnusedExports]. *)
Fixpoint visit (fuel : nat) (ls : LanguageService) (fs : FileService.t)
    (program : Program) (sf : SourceFile) (anc : list Node) (node : Node)
    (st : Scan) : Result Scan :=
  match node with
  | mkNode _ _ _ _ _ _ _ children _ =>
      if isWildcard node then Ok (markUsed st)
      else if isTarget node then
        visitTarget fuel ls fs program sf (mkLocated node anc) st
      else forEachM (visit fuel ls fs program sf (node :: anc)) children st
  end.

Definition getUnusedExports (fuel : nat) (ls : LanguageService)
    (sourceFile : SourceFile) (fs : FileService.t) : Result Scan :=
  match getProgram ls fs with
  | None => Throw "program not found"
  | Some program =>
      forEachM (visit fuel ls fs program sourceFile [sourceNode sourceFile])
               (forEachChild (sourceNode sourceFile)) (mkScan [] false)
  end.

(** The transformer of [getUpdatedExportDeclaration]: [visitEachChild]
    rebuilds every node from the children its visitor keeps, and the
    visitor drops each export specifier whose text is the target's. *)
Fixpoint dropSpecifier (tmpFile : SourceFile) (targetText : string)
    (node : Node) : Node :=
  match node with
  | mkNode k p s e t clause m children tokens =>
      let keep :=
        fix keep (l : list Node) : list Node :=
          match l with
          | [] => []
          | c :: rest =>
              if isKind (kind c) ExportSpecifier
                 && bool_decide (getText tmpFile c = targetText)
              then keep rest
              else dropSpecifier tmpFile targetText c :: keep rest
          end in
      mkNode k p s e t
        (match clause with
         | Some c => Some (dropSpecifier tmpFile targetText c)
         | None => None
         end)
        m (keep children) tokens
  end.

Definition getUpdatedExportDeclaration (sf : SourceFile)
    (exportDeclaration removeTarget : Node) : string :=
  let tmpFile := createSourceFile ts "tmp.ts" (getText sf exportDeclaration) in
  let result :=
    mkSourceFile (fileName tmpFile) (getFullText tmpFile)
      (dropSpecifier tmpFile (getText sf removeTarget) (sourceNode tmpFile)) in
  Js.trim (printFile ts result).

(** The state of the [for] loop of [getTextChanges]. *)
Record Edits : Type := mkEdits {
  changes : list TextChange;
  aborted : bool;
}.

Definition pushChange (st : Edits) (c : TextChange) : Edits :=
  mkEdits (changes st ++ [c]) (aborted st).

(** [xs.findIndex(p)] as an index into [xs], [None] for [-1]. *)
Fixpoint findIndex (p : Node → bool) (xs : list Node) : option nat :=
  match xs with
  | [] => None
  | x :: rest => if p x then Some O else S <$> findIndex p rest
  end.

Definition removeWhole (node : Node) : TextChange :=
  mkTextChange "" (mkTextSpan (getFullStart node) (getFullWidth node)).

(** One iteration of that loop, past the [aborted] test. *)
Definition editNode (sf : SourceFile) (node : Located) (st : Edits) : M Edits :=
  let n := self node in
  if isKind (kind n) ExportSpecifier then
    p ← lift (parent node);
    g ← lift (grandParent node);
    if bool_decide (length (elements p) = 1%nat) then
      _ ← track (TrackRemoveExport (fileName sf) (getStart g) (getText sf g));
      mret (pushChange st (removeWhole g))
    else
      let change :=
        mkTextChange (getUpdatedExportDeclaration sf g n)
                     (mkTextSpan (getStart g) (getWidth g)) in
      let from :=
        match moduleSpecifier g with
        | Some m => " from " +:+ getText sf m
        | None => ""
        end in
      _ ← track (TrackRemoveExport (fileName sf) (getStart n)
                   ("export { " +:+ getText sf n +:+ " }" +:+ from +:+ ";"));
      mret (mkEdits (changes st ++ [change]) true)
  else if isKind (kind n) ExportAssignment then
    _ ← track (TrackRemoveExport (fileName sf) (getStart n) (getText sf n));
    mret (pushChange st (removeWhole n))
  else
    let unnamed :=
      (isKind (kind n) FunctionDeclaration || isKind (kind n) ClassDeclaration)
      && negb (bool_decide
                 (is_Some (List.find (λ c, isKind (kind c) Identifier)
                                     (getChildren n)))) in
    if unnamed then
      let code :=
        Js.slice (getText sf n) 0
          (if isKind (kind n) FunctionDeclaration
           then Js.indexOf (getText sf n) ")" + 1
           else Js.indexOf (getText sf n) "{" - 1) in
      _ ← track (TrackRemoveExport (fileName sf) (getStart n) code);
      mret (pushChange st (removeWhole n))
    else
      match findIndex (λ c, isKind (kind c) SyntaxList) (getChildren n) with
      | None => throw "syntax list not found"
      | Some syntaxListIndex =>
          match getChildren n !! syntaxListIndex,
                getChildren n !! S syntaxListIndex with
          | Some syntaxList, Some syntaxListNextSibling =>
              let change :=
                mkTextChange ""
                  (mkTextSpan (getStart syntaxList)
                     (getStart syntaxListNextSibling - getStart syntaxList)) in
              let code :=
                match findFirstNodeOfKind n Identifier with
                | Some i => getText sf i
                | None => ""
                end in
              _ ← track (TrackRemoveExport (fileName sf) (getStart n) code);
              mret (pushChange st change)
          | _, _ => throw "syntax list not found"
          end
      end.

Fixpoint editLoop (sf : SourceFile) (unused : list Located) (st : Edits) : M Edits :=
  match unused with
  | [] => mret st
  | node :: rest =>
      if aborted st then mret st
      else st' ← editNode sf node st; editLoop sf rest st'
  end.

Record TextChanges : Type := mkTextChanges {
  result_changes : list TextChange;
  done : bool;
  result_isUsed : bool;
}.

Definition getTextChanges (fuel : nat) (ls : LanguageService) (file : string)
    : M TextChanges :=
  fs ← getStore;
  match getProgram ls fs with
  | None => throw "source file not found"
  | Some program =>
      match getSourceFile program file with
      | None => throw "source file not found"
      | Some sourceFile =>
          scan ← lift (getUnusedExports fuel ls sourceFile fs);
          st ← editLoop sourceFile (nodes scan) (mkEdits [] false);
          mret (mkTextChanges (changes st) (negb (aborted st)) (isUsed scan))
      end
  end.

(** One turn of the [do ... while (true)] loop of [removeUnusedExport]:
    the new content and what [getTextChanges] returned. *)
Definition removalPass (fuel : nat) (ls : LanguageService) (file : string)
    (content : string) : M (string * TextChanges) :=
  result ← getTextChanges fuel ls file;
  let content := applyTextChanges content (result_changes result) in
  _ ← setFile file content;
  mret (content, result).

(** The loop itself, yielding [content] and [isUsed]; [n] bounds the
    number of passes. *)
Fixpoint removalLoop (n fuel : nat) (ls : LanguageService) (file : string)
    (content : string) : M (string * bool) :=
  match n with
  | O => lift OutOfFuel
  | S n' =>
      r ← removalPass fuel ls file content;
      if done r.2 then mret (r.1, result_isUsed r.2)
      else removalLoop n' fuel ls file r.1
  end.

(** The [while (true)] loop of the secondary pass. *)
Fixpoint codeFixLoop (n : nat) (ls : LanguageService) (file : string)
    (content : string) : M string :=
  match n with
  | O => lift OutOfFuel
  | S n' =>
      _ ← setFile file content;
      fs ← getStore;
      let result := applyCodeFix fixIdDelete file ls fs in
      if bool_decide (result = content) then mret content
      else codeFixLoop n' ls file result
  end.

(** The body of the [for] loop over the target files. *)
Definition processFile (fuel : nat) (ls : LanguageService) (program : Program)
    (deleteUnusedFile enableCodeFix : bool) (file : string) : M unit :=
  match getSourceFile program file with
  | None => mret tt
  | Some sourceFile =>
      _ ← track (TrackStart file (getFullText sourceFile));
      fs ← getStore;
      r ← removalLoop fuel fuel ls file (FileService.get fs file);
      let content := r.1 in
      let isUsed := r.2 in
      if negb isUsed && deleteUnusedFile then
        _ ← deleteFile file;
        track (TrackDelete file)
      else
        _ ← track (TrackEnd file);
        content ←
          (if enableCodeFix then
             content ← codeFixLoop fuel ls file content;
             _ ← setFile file content;
             fs ← getStore;
             mret (applyCodeFix fixIdDeleteImports file ls fs)
           else mret content);
        setFile file content
  end.

Fixpoint forFiles (fuel : nat) (ls : LanguageService) (program : Program)
    (deleteUnusedFile enableCodeFix : bool) (files : list string) : M unit :=
  match files with
  | [] => mret tt
  | file :: rest =>
      _ ← processFile fuel ls program deleteUnusedFile enableCodeFix file;
      forFiles fuel ls program deleteUnusedFile enableCodeFix rest
  end.

(** [removeUnusedExport({ fileService, targetFile, languageService,
    deleteUnusedFile, enableCodeFix, editTracker })]; [fuel] bounds every
    loop of the run. *)
Definition removeUnusedExport (fuel : nat) (targetFile : list string)
    (ls : LanguageService) (deleteUnusedFile enableCodeFix : bool) : M unit :=
  fs ← getStore;
  match getProgram ls fs with
  | None => throw "program not found"
  | Some program =>
      forFiles fuel ls program deleteUnusedFile enableCodeFix targetFile
  end.

(** A run from a given file store with nothing yet reported. *)
Definition run {A : Type} (m : M A) (fileService : FileService.t) : Result A * World :=
  m (mkWorld fileService []).

End Core.

End RemoveUnusedExport.

(* ===================================================================== *)
(** ** The earlier driver: [removeExport] (removeExport.ts) *)
(* ===================================================================== *)

Module RemoveExport.

Section Core.
Context (ts : TypeScript).

Fixpoint findFirstVisitor (k : SyntaxKind) (node : Node) : option Node :=
  match node with
  | mkNode k' _ _ _ _ _ _ children _ =>
      if isKind k' k then Some node
      else firstSome (findFirstVisitor k) children
  end.

Definition findFirstNodeOfKind (root : Node) (k : SyntaxKind) : option Node :=
  firstSome (findFirstVisitor k) (forEachChild root).

Definition IGNORE_COMMENT : string := "ts-remove-unused-skip".

Definition getLeadingComment (sf : SourceFile) (node : Node) : string :=
  let fullText := getFullText sf in
  match getLeadingCommentRanges ts fullText (getFullStart node) with
  | None => ""
  | Some ranges =>
      Js.join "" (map (λ r, Js.slice fullText (range_pos r) (range_end r)) ranges)
  end.

(** Here the skip marker is part of candidate selection itself. *)
Definition isTarget (sf : SourceFile) (node : Node) : bool :=
  if isKind (kind node) ExportAssignment || isKind (kind node) ExportSpecifier
  then negb (Js.includes (getLeadingComment sf node) IGNORE_COMMENT)
  else if isKind (kind node) VariableStatement
          || isKind (kind node) FunctionDeclaration
          || isKind (kind node) InterfaceDeclaration
          || isKind (kind node) TypeAliasDeclaration then
    match findFirstNodeOfKind node ExportKeyword with
    | None => false
    | Some _ => negb (Js.includes (getLeadingComment sf node) IGNORE_COMMENT)
    end
  else false.

Definition findReferences (ls : LanguageService) (fs : FileService.t)
    (sf : SourceFile) (node : Node) : Result (option (list ReferencedSymbol)) :=
  if isKind (kind node) VariableStatement then
    match findFirstNodeOfKind node VariableDeclaration with
    | None => Ok None
    | Some variableDeclaration =>
        Ok (service_findReferences ls fs (fileName sf) (getStart variableDeclaration))
    end
  else if isKind (kind node) FunctionDeclaration
       || isKind (kind node) InterfaceDeclaration
       || isKind (kind node) TypeAliasDeclaration
       || isKind (kind node) ExportSpecifier then
    Ok (service_findReferences ls fs (fileName sf) (getStart node))
  else if isKind (kind node) ExportAssignment then
    match List.find (λ n, isKind (kind n) DefaultKeyword) (getChildren node) with
    | None => Ok None
    | Some defaultKeyword =>
        Ok (service_findReferences ls fs (fileName sf) (getStart defaultKeyword))
    end
  else Throw "unexpected node type".

(** [references.flatMap((v) => v.references).length] *)
Definition referenceCount (refs : list ReferencedSymbol) : nat :=
  length (flat_map references refs).

(** The two tests on [count], in the order of the source: the second is
    the [else] of the first and is open to every kind of candidate. *)
Definition countSelects (node : Node) (count : nat) : bool :=
  if isKind (kind node) ExportSpecifier && bool_decide (count = 2%nat) then true
  else if bool_decide (count = 1%nat) then true
  else false.

(** The visitor of [getFirstUnusedExport]; the state is [result]. *)
Fixpoint visit (ls : LanguageService) (fs : FileService.t) (sf : SourceFile)
    (node : Node) (result : option Node) : Result (option Node) :=
  match node with
  | mkNode _ _ _ _ _ _ _ children _ =>
      match result with
      | Some _ => Ok result
      | None =>
          if isTarget sf node then
            found ← findReferences ls fs sf node;
            match found with
            | None => Ok result
            | Some refs =>
                if countSelects node (referenceCount refs) then Ok (Some node)
                else forEachM (visit ls fs sf) children result
            end
          else forEachM (visit ls fs sf) children result
      end
  end.

Definition getFirstUnusedExport (sourceFile : SourceFile)
    (ls : LanguageService) (fs : FileService.t) : Result (option Node) :=
  forEachM (visit ls fs sourceFile) (forEachChild (sourceNode sourceFile)) None.

(** The body of the [for] loop of [removeExport] for one yielded [item]:
    the text of its source file with one span cut out is written back. *)
Definition removeItem (sourceFile : SourceFile) (targetFile : string)
    (item : Node) : M unit :=
  let content := getFullText sourceFile in
  if isKind (kind item) ExportAssignment || isKind (kind item) ExportSpecifier then
    setFile targetFile
      (Js.slice content 0 (getStart item) +:+ Js.sliceFrom content (getEnd item))
  else
    match findFirstNodeOfKind item ExportKeyword with
    | None => throw "export keyword not found"
    | Some exportKeyword =>
        setFile targetFile
          (Js.slice content 0 (getStart exportKeyword)
           +:+ Js.sliceFrom content (getEnd exportKeyword))
    end.

(** [removeExport({ fileService, targetFile, languageService })]: the
    generator [getUnusedExportWhileExists] interleaved with the [for] loop
    that consumes it; [fuel] bounds the number of items. *)
Fixpoint removeExport (fuel : nat) (targetFile : string) (ls : LanguageService)
    : M unit :=
  match fuel with
  | O => lift OutOfFuel
  | S fuel' =>
      fs ← getStore;
      match getProgram ls fs with
      | None => throw "program not found"
      | Some program =>
          match getSourceFile program targetFile with
          | None => throw "source file not found"
          | Some sourceFile =>
              firstExport ← lift (getFirstUnusedExport sourceFile ls fs);
              match firstExport with
              | None => mret tt
              | Some item =>
                  _ ← removeItem sourceFile targetFile item;
                  removeExport fuel' targetFile ls
              end
          end
      end
  end.

End Core.

End RemoveExport.

(* ===================================================================== *)
(** ** Scripted services and sample projects *)
(* ===================================================================== *)

(** Test doubles in the sense of the design notes: a language service whose
    program re-parses whatever the file store holds through a scripted
    parser, and whose reference index is a scripted table. *)
Module Scripted.

Definition service
    (parse : string → string → option SourceFile)
    (index : FileService.t → string → Z → option (list ReferencedSymbol))
    : LanguageService :=
  mkLanguageService
    (λ fs, Some (mkProgram (λ file,
       match fs !! file with
       | Some content => parse file content
       | None => None
       end)))
    index.

Definition leaf (k : SyntaxKind) (p s e : Z) (t : string) : Node :=
  mkNode k p s e t None None [] [].

Definition syntaxList (p s e : Z) (items : list Node) : Node :=
  mkNode SyntaxList p s e "" None None [] items.

Definition sourceFileOf (file content : string) (statements : list Node) : SourceFile :=
  let n := Js.len content in
  mkSourceFile file content
    (mkNode SourceFileKind 0 0 n "" None None
       (statements ++ [leaf EndOfFileToken n n n ""])
       [syntaxList 0 0 n statements; leaf EndOfFileToken n n n ""]).

(** A printer for files that consist of export declarations, laid out as
    the compiler's printer lays them out. *)
Definition printSpecifier (specifier : Node) : string :=
  Js.join " as " (map text (forEachChild specifier)).

Definition printStatement (sf : SourceFile) (statement : Node) : string :=
  match exportClause statement with
  | Some clause =>
      "export "
      +:+ match elements clause with
          | [] => "{}"
          | es => "{ " +:+ Js.join ", " (map printSpecifier es) +:+ " }"
          end
      +:+ match moduleSpecifier statement with
          | Some m => " from " +:+ getText sf m
          | None => ""
          end
      +:+ ";" +:+ String "010" ""
  | None => ""
  end.

Definition print (sf : SourceFile) : string :=
  Js.join ""
    (map (printStatement sf)
         (List.filter (λ n, isKind (kind n) ExportDeclaration)
                      (forEachChild (sourceNode sf)))).

Definition noComments (text : string) (p : Z) : option (list CommentRange) := None.
Definition unresolved (specifier file : string) (program : Program)
    (fs : FileService.t) : option string := None.
Definition noCodeFix (fix_ : FixId) (file : string) (ls : LanguageService)
    (fs : FileService.t) : string := FileService.get fs file.

Definition sameFileEntry (file : string) (s len : Z) : ReferenceEntry :=
  mkReferenceEntry file (mkTextSpan s len).

(** The symbol's own definition with the occurrences in its own file. *)
Definition ownSymbol (file : string) (entries : list ReferenceEntry) : ReferencedSymbol :=
  mkReferencedSymbol (mkDefinitionInfo file) entries.

(** The compiler functions for projects without comments, without
    resolvable module specifiers and without clauses to regenerate. *)
Definition compiler : TypeScript :=
  mkTypeScript noComments unresolved (λ name text, sourceFileOf name text []) print.

End Scripted.

(** *** util.ts and main.ts *)
Module Util.
Import Scripted.

Definition file : string := "/util.ts".

(** [export function helper(){}] / [export function shared(){}] *)
Definition content : string :=
  "export function helper(){}" +:+ String "010" "" +:+ "export function shared(){}".

(** A named function declaration with an empty body whose [export]
    keyword starts at [s] and whose leading trivia starts at [p]. *)
Definition functionDeclaration (name : string) (p s : Z) : Node :=
  let export := leaf ExportKeyword s s (s + 6) "" in
  let n := Js.len name in
  let identifier := leaf Identifier (s + 15) (s + 16) (s + 16 + n) name in
  let e := s + 16 + n in
  let body :=
    mkNode Block (e + 2) (e + 2) (e + 4) "" None None []
      [leaf OpenBraceToken (e + 2) (e + 2) (e + 3) "";
       syntaxList (e + 3) (e + 3) (e + 3) [];
       leaf CloseBraceToken (e + 3) (e + 3) (e + 4) ""] in
  mkNode FunctionDeclaration p s (e + 4) "" None None
    [export; identifier; body]
    [syntaxList s s (s + 6) [export];
     leaf FunctionKeyword (s + 6) (s + 7) (s + 15) "";
     identifier;
     leaf OpenParenToken e e (e + 1) "";
     syntaxList (e + 1) (e + 1) (e + 1) [];
     leaf CloseParenToken (e + 1) (e + 1) (e + 2) "";
     body].

Definition helper : Node := functionDeclaration "helper" 0 0.
Definition shared : Node := functionDeclaration "shared" 26 27.

Definition sourceFile : SourceFile := sourceFileOf file content [helper; shared].

Definition parse (f text : string) : option SourceFile :=
  if bool_decide (f = file) && bool_decide (text = content) then Some sourceFile
  else None.

(** [helper] is referenced nowhere else; [shared] is imported by main.ts. *)
Definition index (fs : FileService.t) (f : string) (p : Z)
    : option (list ReferencedSymbol) :=
  if bool_decide (f = file) then
    if p =? 0 then Some [ownSymbol file [sameFileEntry file 16 6]]
    else if p =? 27 then
      Some [ownSymbol file [sameFileEntry file 43 6];
            mkReferencedSymbol (mkDefinitionInfo "/main.ts")
              [mkReferenceEntry "/main.ts" (mkTextSpan 9 6);
               mkReferenceEntry "/main.ts" (mkTextSpan 33 6)]]
    else None
  else None.

Definition ls : LanguageService := service parse index.
Definition fs : FileService.t :=
  {[ file := content; "/main.ts" := "import { shared } from './util'; shared();" ]}.

End Util.

(** *** [export async function f() {}] *)
Module Async.
Import Scripted.

Definition file : string := "/jobs.ts".
Definition content : string := "export async function f() {}".

Definition exportKeyword : Node := leaf ExportKeyword 0 0 6 "".
Definition asyncKeyword : Node := leaf AsyncKeyword 6 7 12 "".
Definition name : Node := leaf Identifier 21 22 23 "f".
Definition body : Node :=
  mkNode Block 25 26 28 "" None None []
    [leaf OpenBraceToken 25 26 27 ""; syntaxList 27 27 27 [];
     leaf CloseBraceToken 27 27 28 ""].

(** The modifiers of a declaration form one [SyntaxList] in
    [getChildren()]. *)
Definition declaration : Node :=
  mkNode FunctionDeclaration 0 0 28 "" None None
    [exportKeyword; asyncKeyword; name; body]
    [syntaxList 0 0 12 [exportKeyword; asyncKeyword];
     leaf FunctionKeyword 12 13 21 "";
     name;
     leaf OpenParenToken 23 23 24 "";
     syntaxList 24 24 24 [];
     leaf CloseParenToken 24 24 25 "";
     body].

Definition sourceFile : SourceFile := sourceFileOf file content [declaration].

Definition parse (f text : string) : option SourceFile :=
  if bool_decide (f = file) && bool_decide (text = content) then Some sourceFile
  else None.

(** [f] has no reference outside its own file. *)
Definition index (fs : FileService.t) (f : string) (p : Z)
    : option (list ReferencedSymbol) :=
  if bool_decide (f = file) && (p =? 0)
  then Some [ownSymbol file [sameFileEntry file 22 1]]
  else None.

Definition ls : LanguageService := service parse index.
Definition fs : FileService.t := {[ file := content ]}.

End Async.

(** *** Export declarations with a clause: [export { a, b, c };] *)
Module ExportList.
Import Scripted.

Definition file : string := "/names.ts".

Definition declarationText (names : list string) (from : option string) : string :=
  "export { " +:+ Js.join ", " names +:+ " }"
  +:+ match from with
      | Some m => " from '" +:+ m +:+ "'"
      | None => ""
      end
  +:+ ";".

Fixpoint specifierNodes (s : Z) (names : list string) : list Node :=
  match names with
  | [] => []
  | n :: rest =>
      let e := s + Js.len n in
      let identifier := leaf Identifier (s - 1) s e n in
      mkNode ExportSpecifier (s - 1) s e "" None None [identifier] [identifier]
      :: specifierNodes (e + 2) rest
  end.

Fixpoint withCommas (specifiers : list Node) : list Node :=
  match specifiers with
  | [] => []
  | [x] => [x]
  | x :: rest => x :: leaf CommaToken (end_ x) (end_ x) (end_ x + 1) "" :: withCommas rest
  end.

Definition declarationNode (names : list string) (from : option string) : Node :=
  let specifiers := specifierNodes 9 names in
  let close := 9 + Js.len (Js.join ", " names) + 1 in
  let clause :=
    mkNode NamedExports 6 7 (close + 1) "" None None specifiers
      [leaf OpenBraceToken 6 7 8 "";
       syntaxList 8 9 (close - 1) (withCommas specifiers);
       leaf CloseBraceToken (close - 1) close (close + 1) ""] in
  let literal :=
    match from with
    | Some m =>
        Some (leaf StringLiteral (close + 6) (close + 7)
                   (close + 7 + Js.len m + 2) m)
    | None => None
    end in
  let e := Js.len (declarationText names from) in
  mkNode ExportDeclaration 0 0 e "" (Some clause) literal
    (clause :: match literal with Some m => [m] | None => [] end)
    ([leaf ExportKeyword 0 0 6 ""; clause]
     ++ match literal with
        | Some m => [leaf FromKeyword (close + 1) (close + 2) (close + 6) ""; m]
        | None => []
        end
     ++ [leaf SemicolonToken (e - 1) (e - 1) e ""]).

Definition sourceFileFor (f : string) (names : list string) (from : option string)
    : SourceFile :=
  match names with
  | [] => sourceFileOf f "" []
  | _ => sourceFileOf f (declarationText names from) [declarationNode names from]
  end.

(** The clauses the parser is scripted for. *)
Definition clauses : list (list string) :=
  [["a"; "b"; "c"]; ["a"; "c"]; ["b"; "c"]; ["c"]; []].

Definition parse (f text : string) : option SourceFile :=
  match List.find (λ names, bool_decide (getFullText (sourceFileFor f names None) = text))
                  clauses with
  | Some names => Some (sourceFileFor f names None)
  | None => None
  end.

Definition otherFile (name : string) : ReferencedSymbol :=
  mkReferencedSymbol (mkDefinitionInfo "/main.ts")
    [mkReferenceEntry "/main.ts" (mkTextSpan 9 (Js.len name))].

(** The reference index for a given set of names used from main.ts: every
    specifier has its self-linkage in names.ts, a used one also an
    occurrence defined in main.ts. *)
Definition index (used : list string) (fs : FileService.t) (f : string) (p : Z)
    : option (list ReferencedSymbol) :=
  match parse f (FileService.get fs f) with
  | None => None
  | Some sf =>
      match firstSome
              (λ d, List.find (λ s, bool_decide (getStart s = p))
                              (match exportClause d with
                               | Some c => elements c
                               | None => []
                               end))
              (forEachChild (sourceNode sf)) with
      | None => None
      | Some specifier =>
          let name := getText sf specifier in
          Some (ownSymbol f [sameFileEntry f 100 (Js.len name);
                             sameFileEntry f p (Js.len name)]
                :: if bool_decide (name ∈ used) then [otherFile name] else [])
      end
  end.

Definition compiler : TypeScript :=
  mkTypeScript noComments unresolved
    (λ name text, default (sourceFileOf name text []) (parse name text)) print.
Definition ls (used : list string) : LanguageService := service parse (index used).
Definition fs : FileService.t := {[ file := declarationText ["a"; "b"; "c"] None ]}.

End ExportList.

(** *** [export { x } from '';] *)
Module EmptySpecifier.
Import Scripted.

Definition file : string := "/barrel.ts".
Definition content : string := ExportList.declarationText ["x"] (Some "").
Definition sourceFile : SourceFile := ExportList.sourceFileFor file ["x"] (Some "").

Definition parse (f text : string) : option SourceFile :=
  if bool_decide (f = file) && bool_decide (text = content) then Some sourceFile
  else if bool_decide (f = file) && bool_decide (text = "") then Some (sourceFileOf f "" [])
  else None.

(** The only occurrence of [x] is the specifier itself. *)
Definition index (fs : FileService.t) (f : string) (p : Z)
    : option (list ReferencedSymbol) :=
  if bool_decide (f = file) && (p =? 9)
  then Some [ownSymbol file [sameFileEntry file 9 1]]
  else None.

Definition ls : LanguageService := service parse index.
Definition fs : FileService.t := {[ file := content ]}.

End EmptySpecifier.

(** *** A barrel with a wildcard: [export * from './m';] and an unused
    function *)
Module Wildcard.
Import Scripted.

Definition file : string := "/index.ts".
Definition content : string :=
  "export * from './m';" +:+ String "010" "" +:+ "export function unused(){}".
Definition edited : string :=
  "export * from './m';" +:+ String "010" "" +:+ "function unused(){}".

Definition literal : Node := leaf StringLiteral 13 14 19 "./m".
Definition wildcard : Node :=
  mkNode ExportDeclaration 0 0 20 "" None (Some literal) [literal]
    [leaf ExportKeyword 0 0 6 ""; leaf AsteriskToken 6 7 8 "";
     leaf FromKeyword 8 9 13 ""; literal; leaf SemicolonToken 19 19 20 ""].

Definition unused : Node := Util.functionDeclaration "unused" 20 21.

(** The edited file: the same wildcard, the function no longer exported. *)
Definition plainFunction : Node :=
  mkNode FunctionDeclaration 20 21 40 "" None None
    [leaf Identifier 29 30 36 "unused"]
    [leaf FunctionKeyword 20 21 29 ""; leaf Identifier 29 30 36 "unused";
     leaf OpenParenToken 36 36 37 ""; syntaxList 37 37 37 [];
     leaf CloseParenToken 37 37 38 ""; leaf Block 38 38 40 ""].

Definition parse (f text : string) : option SourceFile :=
  if bool_decide (f = file) && bool_decide (text = content)
  then Some (sourceFileOf file content [wildcard; unused])
  else if bool_decide (f = file) && bool_decide (text = edited)
  then Some (sourceFileOf file edited [wildcard; plainFunction])
  else None.

Definition index (fs : FileService.t) (f : string) (p : Z)
    : option (list ReferencedSymbol) :=
  if bool_decide (f = file) && (p =? 21)
  then Some [ownSymbol file [sameFileEntry file 37 6]]
  else None.

Definition ls : LanguageService := service parse index.
Definition fs : FileService.t := {[ file := content ]}.

End Wildcard.

(** *** A file without exports: [console.log(1);] *)
Module Script.
Import Scripted.

Definition file : string := "/script.ts".
Definition content : string := "console.log(1);".

Definition statement : Node :=
  mkNode ExpressionStatement 0 0 15 "" None None []
    [leaf Identifier 0 0 7 "console"; leaf SemicolonToken 14 14 15 ""].

Definition sourceFile : SourceFile := sourceFileOf file content [statement].

Definition parse (f text : string) : option SourceFile :=
  if bool_decide (f = file) && bool_decide (text = content) then Some sourceFile
  else None.

Definition index (fs : FileService.t) (f : string) (p : Z)
    : option (list ReferencedSymbol) := None.

Definition ls : LanguageService := service parse index.
Definition fs : FileService.t := {[ file := content ]}.

End Script.

(** *** Several variables in one statement: [export const a = 1, b = 2;] *)
Module Variables.
Import Scripted.

Definition file : string := "/config.ts".
Definition content : string := "export const a = 1, b = 2;".

Definition variableDeclaration (name value : string) (p s : Z) : Node :=
  let identifier := leaf Identifier p s (s + 1) name in
  let initializer := leaf NumericLiteral (s + 3) (s + 4) (s + 5) value in
  mkNode VariableDeclaration p s (s + 5) "" None None
    [identifier; initializer]
    [identifier; leaf EqualsToken (s + 1) (s + 2) (s + 3) ""; initializer].

Definition a : Node := variableDeclaration "a" "1" 12 13.
Definition b : Node := variableDeclaration "b" "2" 19 20.

Definition declarationList : Node :=
  mkNode VariableDeclarationList 6 7 25 "" None None [a; b]
    [leaf ConstKeyword 6 7 12 "";
     syntaxList 12 13 25 [a; leaf CommaToken 18 18 19 ""; b]].

Definition exportKeyword : Node := leaf ExportKeyword 0 0 6 "".

Definition statement : Node :=
  mkNode VariableStatement 0 0 26 "" None None
    [exportKeyword; declarationList]
    [syntaxList 0 0 6 [exportKeyword]; declarationList;
     leaf SemicolonToken 25 25 26 ""].

Definition sourceFile : SourceFile := sourceFileOf file content [statement].

Definition parse (f text : string) : option SourceFile :=
  if bool_decide (f = file) && bool_decide (text = content) then Some sourceFile
  else None.

(** [a] is referenced nowhere else; [b] is imported by main.ts. *)
Definition index (fs : FileService.t) (f : string) (p : Z)
    : option (list ReferencedSymbol) :=
  if bool_decide (f = file) then
    if p =? 13 then Some [ownSymbol file [sameFileEntry file 13 1]]
    else if p =? 20 then
      Some [ownSymbol file [sameFileEntry file 20 1];
            mkReferencedSymbol (mkDefinitionInfo "/main.ts")
              [mkReferenceEntry "/main.ts" (mkTextSpan 9 1);
               mkReferenceEntry "/main.ts" (mkTextSpan 40 1)]]
    else None
  else None.

Definition ls : LanguageService := service parse index.
Definition fs : FileService.t :=
  {[ file := content; "/main.ts" := "import { b } from './config'; use(b);" ]}.

End Variables.

(** *** A candidate under a skip comment *)
Module Skip.
Import Scripted.

Definition file : string := "/kept.ts".
Definition content : string :=
  "// ts-remove-unused-skip" +:+ String "010" "" +:+ "export function kept(){}".

Definition kept : Node := Util.functionDeclaration "kept" 0 25.
Definition sourceFile : SourceFile := sourceFileOf file content [kept].

(** The scanner finds the one comment in front of the declaration. *)
Definition comments (text : string) (p : Z) : option (list CommentRange) :=
  if bool_decide (text = content) && (p =? 0) then Some [mkCommentRange 0 24]
  else None.

Definition compiler : TypeScript :=
  mkTypeScript comments unresolved (λ name text, sourceFileOf name text []) print.

Definition parse (f text : string) : option SourceFile :=
  if bool_decide (f = file) && bool_decide (text = content) then Some sourceFile
  else None.

(** No reference outside kept.ts. *)
Definition index (fs : FileService.t) (f : string) (p : Z)
    : option (list ReferencedSymbol) :=
  if bool_decide (f = file) then Some [ownSymbol file [sameFileEntry file 41 4]]
  else None.

Definition ls : LanguageService := service parse index.
Definition fs : FileService.t := {[ file := content ]}.

End Skip.

(** *** A function used three times inside its own file only *)
Module LocalUse.
Import Scripted.

Definition index (fs : FileService.t) (f : string) (p : Z)
    : option (list ReferencedSymbol) :=
  if bool_decide (f = Util.file) && (p =? 0)
  then Some [ownSymbol Util.file
               [sameFileEntry Util.file 16 6; sameFileEntry Util.file 60 6;
                sameFileEntry Util.file 80 6]]
  else None.

Definition ls : LanguageService := service Util.parse index.

End LocalUse.

(* ===================================================================== *)
(** ** Notions the properties are stated with *)
(* ===================================================================== *)

Import RemoveUnusedExport.

(** The candidate's leading comment does not contain the skip marker. *)
Definition unmarked (ts : TypeScript) (sf : SourceFile) (c : Located) : Prop :=
  Js.includes (getLeadingComment ts sf (self c)) IGNORE_COMMENT = false.



(** A specifier among several in its clause: its removal regenerates the
    text of the whole export declaration. *)
Definition isRegeneration (c : Located) : bool :=
  isKind (kind (self c)) ExportSpecifier
  && match parent c with
     | Ok p => negb (bool_decide (length (elements p) = 1%nat))
     | _ => false
     end.

Definition isRemoval (e : TrackerEvent) : Prop :=
  match e with
  | TrackRemoveExport _ _ _ => True
  | _ => False
  end.

(** A computation extends the log by removals only and leaves the store
    alone. *)
Definition reportsRemovals {A : Type} (m : M A) : Prop :=
  ∀ w r w', m w = (r, w') →
    store w' = store w
    ∧ ∃ removals, log w' = log w ++ removals ∧ Forall isRemoval removals.

(** A computation leaves the log alone. *)
Definition keepsLog {A : Type} (m : M A) : Prop :=
  ∀ w r w', m w = (r, w') → log w' = log w.

(** A computation deletes no file from the store. *)
Definition keepsFiles {A : Type} (m : M A) : Prop :=
  ∀ w r w', m w = (r, w') → ∀ f, is_Some (store w !! f) → is_Some (store w' !! f).


(** The walk of [getAncestorFiles], entered with the specifier text [sp]
    from the file [cur], reaches a hop that fails: the specifier does not
    resolve, the resolved file has no entry in the reference set, or the
    program has no source file for it.  A hop is made only for a non-empty
    specifier text, and the walk goes on through the forwarding specifier
    that matches the first reference recorded against the resolved file. *)
Inductive WalkFails (ts : TypeScript) (kv : gmap string ReferencedSymbol)
    (fs : FileService.t) (program : Program) : string → string → Prop :=
| WalkFails_here sp cur :
    Js.truthy sp = true →
    (getFileFromModuleSpecifierText ts sp cur program fs = None
     ∨ ∃ origin,
         getFileFromModuleSpecifierText ts sp cur program fs = Some origin
         ∧ (kv !! origin = None ∨ getSourceFile program origin = None)) →
    WalkFails ts kv fs program sp cur
| WalkFails_later sp cur origin symbol sf specifiers first rest r g m :
    Js.truthy sp = true →
    getFileFromModuleSpecifierText ts sp cur program fs = Some origin →
    Js.truthy origin = true →
    kv !! origin = Some symbol →
    getSourceFile program origin = Some sf →
    getReexportInFile sf = Ok specifiers →
    references symbol = first :: rest →
    List.find (matchesSpan first) specifiers = Some r →
    grandParent r = Ok g →
    stringLiteralSpecifier g = Some m →
    WalkFails ts kv fs program (text m) origin →
    WalkFails ts kv fs program sp cur.



(** *** [export = x;] *)
Module ExportEquals.
Import Scripted.

Definition file : string := "/legacy.ts".
Definition content : string := "export = x;".

(** An export assignment without the [default] keyword. *)
Definition assignment : Node :=
  mkNode ExportAssignment 0 0 11 "" None None
    [leaf Identifier 8 9 10 "x"]
    [leaf ExportKeyword 0 0 6 ""; leaf EqualsToken 6 7 8 "";
     leaf Identifier 8 9 10 "x"; leaf SemicolonToken 10 10 11 ""].

Definition sourceFile : SourceFile := sourceFileOf file content [assignment].

Definition parse (f text : string) : option SourceFile :=
  if bool_decide (f = file) && bool_decide (text = content) then Some sourceFile
  else None.

(** Whatever position is asked for, the index knows a use in main.ts. *)
Definition index (fs : FileService.t) (f : string) (p : Z)
    : option (list ReferencedSymbol) :=
  Some [mkReferencedSymbol (mkDefinitionInfo "/main.ts")
          [mkReferenceEntry "/main.ts" (mkTextSpan 7 1)]].

Definition ls : LanguageService := service parse index.
Definition fs : FileService.t := {[ file := content ]}.

End ExportEquals.

(** [d] is reached from [n] by one or more [forEachChild] steps. *)
Inductive Descendant : Node → Node → Prop :=
| Descendant_child d n : In d (forEachChild n) → Descendant d n
| Descendant_below d c n :
    In c (forEachChild n) → Descendant d c → Descendant d n.

(** What entitles a candidate to be collected as unused: it is a target
    without the skip marker, its reference query answered, and no reference
    is recorded under a definition outside its file, or, for a specifier,
    outside its file and its resolved re-export ancestry. *)
Definition soundlyUnused (ts : TypeScript) (fuel : nat) (ls : LanguageService)
    (fs : FileService.t) (program : Program) (sf : SourceFile) (c : Located)
    : Prop :=
  isTarget (self c) = true
  ∧ Js.includes (getLeadingComment ts sf (self c)) IGNORE_COMMENT = false
  ∧ ∃ refs,
      findReferences ls fs sf (self c) = Ok (Some refs)
      ∧ (otherFileReferences (fileName sf) refs = []
         ∨ ∃ ancestors,
             kind (self c) = ExportSpecifier
             ∧ getAncestorFiles ts fuel c refs fs program (fileName sf)
               = Ok (Some ancestors)
             ∧ nonAncestorReferences (fileName sf) ancestors refs = []).

(** A computation changes the store at the given files only. *)
Definition touchesOnly {A : Type} (files : list string) (m : M A) : Prop :=
  ∀ w r w', m w = (r, w') → ∀ f, ¬ In f files → store w' !! f = store w !! f.

(** A computation reports no deletion. *)
Definition reportsNoDeletion {A : Type} (m : M A) : Prop :=
  ∀ w r w', m w = (r, w') →
    ∃ events, log w' = log w ++ events
              ∧ Forall (λ e, ∀ f, e ≠ TrackDelete f) events.

(** A change that only cuts text out. *)
Definition isPureRemoval (c : TextChange) : Prop := newText c = "".

(** A forwarding specifier: an export specifier whose export declaration
    carries a string literal as module specifier. *)
Definition forwards (r : Located) : Prop :=
  kind (self r) = ExportSpecifier
  ∧ ∃ g m, grandParent r = Ok g ∧ stringLiteralSpecifier g = Some m
           ∧ moduleSpecifier g = Some m ∧ kind m = StringLiteral.

(** *** A barrel: b.ts with [export { x } from './a';] over a.ts with
    [export const x = 1;] *)
Module Barrel.
Import Scripted.

Definition file : string := "/b.ts".
Definition origin : string := "/a.ts".
Definition content : string := ExportList.declarationText ["x"] (Some "./a").
Definition sourceFile : SourceFile := ExportList.sourceFileFor file ["x"] (Some "./a").

Definition originContent : string := "export const x = 1;".
Definition originStatement : Node :=
  let declaration := Variables.variableDeclaration "x" "1" 12 13 in
  let declarationList :=
    mkNode VariableDeclarationList 6 7 18 "" None None [declaration]
      [leaf ConstKeyword 6 7 12 ""; syntaxList 12 13 18 [declaration]] in
  mkNode VariableStatement 0 0 19 "" None None
    [Variables.exportKeyword; declarationList]
    [syntaxList 0 0 6 [Variables.exportKeyword]; declarationList;
     leaf SemicolonToken 18 18 19 ""].
Definition originFile : SourceFile := sourceFileOf origin originContent [originStatement].

Definition parse (f text : string) : option SourceFile :=
  if bool_decide (f = file) && bool_decide (text = content) then Some sourceFile
  else if bool_decide (f = file) && bool_decide (text = "") then Some (sourceFileOf f "" [])
  else if bool_decide (f = origin) && bool_decide (text = originContent)
  then Some originFile
  else None.

(** ['./a'] resolves to a.ts from b.ts. *)
Definition resolve (specifier from : string) (program : Program)
    (fs : FileService.t) : option string :=
  if bool_decide (specifier = "./a") && bool_decide (from = file)
  then Some origin else None.

Definition compiler : TypeScript :=
  mkTypeScript noComments resolve (λ name text, sourceFileOf name text []) print.

(** The occurrences of [x]: the declaration in a.ts and the specifier in
    b.ts, each under its own definition. *)
Definition occurrences : list ReferencedSymbol :=
  [ownSymbol origin [sameFileEntry origin 13 1];
   ownSymbol file [sameFileEntry file 9 1]].

(** The same with an import of [x] from b.ts in main.ts. *)
Definition consumer : ReferencedSymbol :=
  mkReferencedSymbol (mkDefinitionInfo "/main.ts")
    [mkReferenceEntry "/main.ts" (mkTextSpan 9 1)].

Definition index (imported : bool) (fs : FileService.t) (f : string) (p : Z)
    : option (list ReferencedSymbol) :=
  if bool_decide (f = file) && (p =? 9)
  then Some (occurrences ++ if imported then [consumer] else [])
  else None.

Definition ls (imported : bool) : LanguageService := service parse (index imported).
Definition fs : FileService.t := {[ file := content; origin := originContent ]}.

(** The specifier [x] of b.ts with its parents. *)
Definition specifier : Located :=
  mkLocated
    (mkNode ExportSpecifier 8 9 10 "" None None
       [leaf Identifier 8 9 10 "x"] [leaf Identifier 8 9 10 "x"])
    [List.hd (leaf NamedExports 0 0 0 "")
       (forEachChild (ExportList.declarationNode ["x"] (Some "./a")));
     ExportList.declarationNode ["x"] (Some "./a");
     sourceNode sourceFile].

End Barrel.

(** Removal notifications for one file. *)
Definition removalsOf (file : string) (events : list TrackerEvent) : Prop :=
  Forall (λ e, ∃ position code, e = TrackRemoveExport file position code) events.

(** What entitles a node to be yielded by the earlier driver: it is a
    target, its reference set was returned, and the set counts one
    reference, or two for an export specifier. *)
Definition selectedByCount (ts : TypeScript) (ls : LanguageService)
    (fs : FileService.t) (sf : SourceFile) (item : Node) : Prop :=
  RemoveExport.isTarget ts sf item = true
  ∧ ∃ refs,
      RemoveExport.findReferences ls fs sf item = Ok (Some refs)
      ∧ (RemoveExport.referenceCount refs = 1%nat
         ∨ (kind item = ExportSpecifier
            ∧ RemoveExport.referenceCount refs = 2%nat)).

(** [anc] is the chain of parents of [n], nearest first: each node is
    among the children [forEachChild] visits of the next. *)
Fixpoint isPath (n : Node) (anc : list Node) : Prop :=
  match anc with
  | [] => True
  | p :: rest => In n (forEachChild p) ∧ isPath p rest
  end.

(** A located node that hangs from [root] by its chain of parents, none of
    which is itself a candidate or a wildcard re-export. *)
Definition standsFree (root : Node) (c : Located) : Prop :=
  isPath (self c) (ancestors c)
  ∧ (∃ inner, ancestors c = inner ++ [root])
  ∧ Forall (λ a, isTarget a = false ∧ isWildcard a = false) (ancestors c).

(** *** util.ts reached through a namespace import *)
Module Namespace.
Import Scripted.

(** [helper] is used in main.ts as [u.helper()]: the occurrence is recorded
    under the definition of [helper] in util.ts.  [shared] is imported by
    name, and its occurrences in main.ts are recorded under the import. *)
Definition index (fs : FileService.t) (f : string) (p : Z)
    : option (list ReferencedSymbol) :=
  if bool_decide (f = Util.file) then
    if p =? 0 then
      Some [ownSymbol Util.file
              [sameFileEntry Util.file 16 6;
               mkReferenceEntry "/main.ts" (mkTextSpan 64 6)]]
    else if p =? 27 then
      Some [ownSymbol Util.file [sameFileEntry Util.file 43 6];
            mkReferencedSymbol (mkDefinitionInfo "/main.ts")
              [mkReferenceEntry "/main.ts" (mkTextSpan 38 6);
               mkReferenceEntry "/main.ts" (mkTextSpan 74 6)]]
    else None
  else None.

Definition ls : LanguageService := service Util.parse index.
Definition fs : FileService.t :=
  {[ Util.file := Util.content;
     "/main.ts" :=
       "import * as u from './util'; import { shared } from './util'; u.helper(); shared();" ]}.

End Namespace.



(* ===================================================================== *)
(** ** Properties of the usage analyzer *)
(* ===================================================================== *)

Lemma bind_Ok_inv {A B : Type} (r : Result A) (k : A → Result B) (b : B) :
  r ≫= k = Ok b → ∃ a, r = Ok a ∧ k a = Ok b.
Proof. destruct r; simpl; intros H; try discriminate; eauto. Qed.

Lemma visit_unfold ts fuel ls fs program sf anc node st :
  visit ts fuel ls fs program sf anc node st =
  if isWildcard node then Ok (markUsed st)
  else if isTarget node then
    visitTarget ts fuel ls fs program sf (mkLocated node anc) st
  else forEachM (visit ts fuel ls fs program sf (node :: anc)) (forEachChild node) st.
Proof. destruct node; reflexivity. Qed.

Lemma pushNode_neq_markUsed st c : pushNode st c ≠ markUsed st.
Proof.
  unfold pushNode, markUsed. intros H.
  assert (Hlen : length (nodes st ++ [c]) = length (nodes st)) by congruence.
  rewrite length_app in Hlen. simpl in Hlen. lia.
Qed.

Lemma tally_push st c count : tally st c count = pushNode st c ↔ count = 0%nat.
Proof.
  unfold tally. destruct count as [|n]; simpl.
  - tauto.
  - split; [intros H | discriminate].
    symmetry in H. apply pushNode_neq_markUsed in H. contradiction.
Qed.

Lemma tally_used st c count : tally st c count = markUsed st ↔ count ≠ 0%nat.
Proof.
  unfold tally. destruct count as [|n]; simpl.
  - split; [intros H | congruence].
    apply pushNode_neq_markUsed in H. contradiction.
  - split; [lia | reflexivity].
Qed.

Lemma isKind_true k k' : isKind k k' = true ↔ k = k'.
Proof. unfold isKind. apply bool_decide_eq_true. Qed.

Lemma isKind_false k k' : isKind k k' = false ↔ k ≠ k'.
Proof. unfold isKind. apply bool_decide_eq_false. Qed.











(** *** Invariants of the traversal *)

Lemma forEachM_inv {S : Type} (I : S → Prop) (f : Node → S → Result S)
    (children : list Node) :
  Forall (λ c, ∀ s s', I s → f c s = Ok s' → I s') children →
  ∀ s s', I s → forEachM f children s = Ok s' → I s'.
Proof.
  induction 1 as [|c rest Hc _ IH]; simpl; intros s s' Hs Hrun.
  - congruence.
  - apply bind_Ok_inv in Hrun as (s1 & H1 & H2). eauto.
Qed.

(** What the target branch can do to the scan: nothing, mark the file used,
    or push the candidate, the last only for a candidate without the skip
    marker. *)
Lemma visitTarget_cases ts fuel ls fs program sf c st st' :
  visitTarget ts fuel ls fs program sf c st = Ok st' →
  st' = st ∨ st' = markUsed st
  ∨ (st' = pushNode st c
     ∧ Js.includes (getLeadingComment ts sf (self c)) IGNORE_COMMENT = false).
Proof.
  unfold visitTarget.
  destruct (Js.includes _ _) eqn:Hskip; [intros [= <-]; auto |].
  intros H. apply bind_Ok_inv in H as (found & _ & H).
  destruct found as [refs|]; [| injection H as <-; auto].
  apply bind_Ok_inv in H as (reexport & _ & H).
  assert (Htally : ∀ n, tally st c n = markUsed st ∨ tally st c n = pushNode st c).
  { intros n. unfold tally. destruct (0 <? n)%nat; auto. }
  destruct reexport.
  - apply bind_Ok_inv in H as (ancestors & _ & H).
    destruct ancestors as [a|]; injection H as <-; auto.
    destruct (Htally (length (nonAncestorReferences (fileName sf) a refs)))
      as [-> | ->]; auto.
  - injection H as <-.
    destruct (Htally (length (otherFileReferences (fileName sf) refs)))
      as [-> | ->]; auto.
Qed.

Lemma visit_nodes_unmarked ts fuel ls fs program sf node :
  ∀ anc st st',
    Forall (unmarked ts sf) (nodes st) →
    visit ts fuel ls fs program sf anc node st = Ok st' →
    Forall (unmarked ts sf) (nodes st').
Proof.
  induction node as [node IH] using Node_ind. intros anc st st' Hst.
  rewrite visit_unfold.
  destruct (isWildcard node); [intros [= <-]; exact Hst |].
  destruct (isTarget node).
  - intros H. apply visitTarget_cases in H as [-> | [-> | [-> Hskip]]]; auto.
    simpl. apply Forall_app. split; [exact Hst | repeat constructor; exact Hskip].
  - apply (forEachM_inv (λ s, Forall (unmarked ts sf) (nodes s))); [| exact Hst].
    eapply Forall_impl; [exact IH |]. simpl. intros c Hc s s'. apply Hc.
Qed.

Lemma target_not_wildcard node : isTarget node = true → isWildcard node = false.
Proof.
  unfold isTarget, isWildcard, isDeclarationKind.
  destruct (kind node); simpl; intros H; try discriminate; reflexivity.
Qed.

(** C6.  A candidate whose leading comment contains the skip marker makes
    the visitor mark the file used whatever the language service and its
    reference index would answer (the verdict is reached without a query),
    no candidate collected by [getUnusedExports] for removal carries the
    marker, and the earlier driver does not select such a node as a target
    at all. *)
Theorem skip_marker_forces_used ts fuel sf :
  (∀ node, isTarget node = true →
     Js.includes (getLeadingComment ts sf node) IGNORE_COMMENT = true →
     ∀ ls fs program anc st,
       visit ts fuel ls fs program sf anc node st = Ok (markUsed st))
  ∧ (∀ ls fs scan,
       getUnusedExports ts fuel ls sf fs = Ok scan →
       Forall (λ c, Js.includes (getLeadingComment ts sf (self c)) IGNORE_COMMENT
                    = false) (nodes scan))
  ∧ (∀ node,
       Js.includes (RemoveExport.getLeadingComment ts sf node)
                   RemoveExport.IGNORE_COMMENT = true →
       RemoveExport.isTarget ts sf node = false).
Proof.
  split; [| split].
  - intros node Htarget Hskip ls fs program anc st.
    rewrite visit_unfold, (target_not_wildcard _ Htarget), Htarget.
    unfold visitTarget. simpl. rewrite Hskip. reflexivity.
  - intros ls fs scan. unfold getUnusedExports.
    destruct (getProgram ls fs) as [program|]; [| discriminate].
    apply (forEachM_inv (λ s, Forall (unmarked ts sf) (nodes s))).
    + apply Forall_forall. intros c _ s s'. apply visit_nodes_unmarked.
    + constructor.
  - intros node Hskip. unfold RemoveExport.isTarget. rewrite Hskip. simpl.
    destruct (_ || _); [reflexivity |].
    destruct (_ || _); [| reflexivity].
    destruct (RemoveExport.findFirstNodeOfKind _ _); reflexivity.
Qed.

(** [kept] of kept.ts sits under the skip comment and has no reference
    outside its file: it stays, and the file is marked used. *)
Lemma skip_marker_forces_used_witness :
  visit Skip.compiler 5 Skip.ls Skip.fs (mkProgram (λ _, None)) Skip.sourceFile
        [sourceNode Skip.sourceFile] Skip.kept (mkScan [] false)
  = Ok (mkScan [] true)
  ∧ Forall (λ c, Js.includes (getLeadingComment Skip.compiler Skip.sourceFile (self c))
                             IGNORE_COMMENT = false) []
  ∧ RemoveExport.isTarget Skip.compiler Skip.sourceFile Skip.kept = false.
Proof.
  destruct (skip_marker_forces_used Skip.compiler 5 Skip.sourceFile) as (Hnew & Hall & Hold).
  split; [| split].
  - apply (Hnew Skip.kept); reflexivity.
  - apply (Hall Skip.ls Skip.fs (mkScan [] true)). vm_compute. reflexivity.
  - apply (Hold Skip.kept). reflexivity.
Defined.

(** *** Variable statements *)



(** *** Forwarding specifiers *)

(** When [getAncestorFiles] returns [null], the forwarding specifier marks
    the file used and is not collected. *)
Lemma failed_ancestry_is_used ts fuel ls fs program sf c st refs g :
  kind (self c) = ExportSpecifier →
  Js.includes (getLeadingComment ts sf (self c)) IGNORE_COMMENT = false →
  findReferences ls fs sf (self c) = Ok (Some refs) →
  grandParent c = Ok g →
  is_Some (moduleSpecifier g) →
  getAncestorFiles ts fuel c refs fs program (fileName sf) = Ok None →
  visitTarget ts fuel ls fs program sf c st = Ok (markUsed st).
Proof.
  intros Hkind Hskip Hrefs Hg Hm Hnull. unfold visitTarget.
  rewrite Hskip, Hrefs. simpl. rewrite Hkind. simpl. rewrite Hg. simpl.
  rewrite bool_decide_eq_true_2 by exact Hm. rewrite Hnull. reflexivity.
Qed.

(** A hop of the walk with a non-empty specifier text fails, whatever was
    gathered before, when the specifier does not resolve, when the resolved
    file has no entry in the reference set, or when the program has no
    source file for it. *)
Lemma failing_hop_returns_null ts fuel kv fs program sp currentFile result :
  Js.truthy sp = true →
  (getFileFromModuleSpecifierText ts sp currentFile program fs = None
   ∨ ∃ origin,
       getFileFromModuleSpecifierText ts sp currentFile program fs = Some origin
       ∧ (kv !! origin = None ∨ getSourceFile program origin = None)) →
  ancestorLoop ts (S fuel) kv fs program (Some sp) currentFile result = Ok None.
Proof.
  intros Hsp H. simpl. rewrite Hsp. simpl.
  destruct H as [-> | (origin & -> & H)]; [reflexivity |].
  destruct (Js.truthy origin); simpl; [| reflexivity].
  destruct H as [-> | H]; [reflexivity |].
  destruct (kv !! origin); [| reflexivity]. rewrite H. reflexivity.
Qed.

(** A walk that reaches a failing hop returns [null], given the fuel to get
    there. *)
Lemma walk_fails_returns_null ts kv fs program sp cur :
  WalkFails ts kv fs program sp cur →
  ∃ n, ∀ fuel, (n ≤ fuel)%nat → ∀ result,
    ancestorLoop ts fuel kv fs program (Some sp) cur result = Ok None.
Proof.
  induction 1 as [sp cur Hsp Hfail
                 | sp cur origin symbol sf specifiers first rest r g m
                     Hsp Horigin Htruthy Hkv Hsf Hspecs Hrefs Hfind Hg Hm _ IH].
  - exists 1%nat. intros [|fuel] Hle result; [lia |].
    apply failing_hop_returns_null; assumption.
  - destruct IH as (n & IH). exists (S n). intros [|fuel] Hle result; [lia |].
    simpl. rewrite Hsp, Horigin, Htruthy, Hkv, Hsf, Hspecs. simpl.
    rewrite Hrefs, Hfind, Hg. simpl. rewrite Hm. apply IH. lia.
Qed.

(** A forwarding specifier whose ancestry walk reaches a failing hop is
    treated as used: the file is marked used and the specifier is not
    collected. *)
Lemma failing_walk_is_used ts ls fs program sf c st refs g m :
  kind (self c) = ExportSpecifier →
  Js.includes (getLeadingComment ts sf (self c)) IGNORE_COMMENT = false →
  findReferences ls fs sf (self c) = Ok (Some refs) →
  grandParent c = Ok g →
  stringLiteralSpecifier g = Some m →
  WalkFails ts (referencesKeyValue refs) fs program (text m) (fileName sf) →
  ∃ n, ∀ fuel, (n ≤ fuel)%nat →
    visitTarget ts fuel ls fs program sf c st = Ok (markUsed st).
Proof.
  intros Hkind Hskip Hrefs Hg Hm Hfails.
  destruct (walk_fails_returns_null _ _ _ _ _ _ Hfails) as (n & Hnull).
  exists n. intros fuel Hle.
  apply (failed_ancestry_is_used ts fuel ls fs program sf c st refs g); auto.
  - unfold stringLiteralSpecifier in Hm.
    destruct (moduleSpecifier g); [eauto | discriminate].
  - unfold getAncestorFiles. rewrite Hg. simpl. rewrite Hm. apply Hnull, Hle.
Qed.

(** C2.  [export { x } from '';] in barrel.ts: the module specifier resolves
    to no file, yet the walk of [getAncestorFiles] does not fail.  Its
    [while (specifier)] loop takes the empty text for the end of the chain
    and returns the empty ancestry, so the specifier is collected as unused
    and one run removes the export statement. *)
Theorem empty_module_specifier_is_removed :
  ∃ c,
    kind (self c) = ExportSpecifier
    ∧ getText EmptySpecifier.sourceFile (self c) = "x"
    ∧ (∃ g m, grandParent c = Ok g ∧ stringLiteralSpecifier g = Some m ∧ text m = "")
    ∧ (∀ program,
         getFileFromModuleSpecifierText Scripted.compiler "" EmptySpecifier.file program
                                        EmptySpecifier.fs = None)
    ∧ (∀ program refs,
         getAncestorFiles Scripted.compiler 5 c refs EmptySpecifier.fs program
                          EmptySpecifier.file = Ok (Some ∅))
    ∧ getUnusedExports Scripted.compiler 5 EmptySpecifier.ls EmptySpecifier.sourceFile
                       EmptySpecifier.fs
      = Ok (mkScan [c] false)
    ∧ (let r := run (removeUnusedExport Scripted.compiler Scripted.noCodeFix 5
                       [EmptySpecifier.file] EmptySpecifier.ls false false)
                    EmptySpecifier.fs in
       r.1 = Ok tt
       ∧ FileService.get (store r.2) EmptySpecifier.file = ""
       ∧ log r.2 = [TrackStart EmptySpecifier.file "export { x } from '';";
                    TrackRemoveExport EmptySpecifier.file 0 "export { x } from '';";
                    TrackEnd EmptySpecifier.file]).
Proof.
  destruct (getUnusedExports Scripted.compiler 5 EmptySpecifier.ls EmptySpecifier.sourceFile
              EmptySpecifier.fs) as [scan| |] eqn:Hscan; try discriminate.
  destruct scan as [[|c [|]] used]; try discriminate.
  exists c. vm_compute in Hscan. injection Hscan as <- <-.
  split; [reflexivity |]. split; [reflexivity |].
  split; [do 2 eexists; repeat split; reflexivity |].
  split; [reflexivity |]. split; [reflexivity |].
  split; [vm_compute; reflexivity |].
  vm_compute. repeat split; reflexivity.
Qed.

(* ===================================================================== *)
(** ** Properties of the text edits and of the driver *)
(* ===================================================================== *)

(** *** Running in [M] *)

Lemma M_bind_unfold {A B : Type} (m : M A) (k : A → M B) (w : World) :
  (m ≫= k) w
  = match m w with
    | (Ok a, w') => k a w'
    | (Throw msg, w') => (Throw msg, w')
    | (OutOfFuel, w') => (OutOfFuel, w')
    end.
Proof. reflexivity. Qed.

Lemma M_bind_Ok_inv {A B : Type} (m : M A) (k : A → M B) w b w' :
  (m ≫= k) w = (Ok b, w') →
  ∃ a w1, m w = (Ok a, w1) ∧ k a w1 = (Ok b, w').
Proof.
  rewrite M_bind_unfold. destruct (m w) as [[a| |] w1]; intros H;
    try discriminate; eauto.
Qed.

Lemma reportsRemovals_ret {A : Type} (a : A) : reportsRemovals (mret a : M A).
Proof.
  intros w r w' [= <- <-]. split; [reflexivity |].
  exists []. rewrite app_nil_r. split; [reflexivity | constructor].
Qed.

Lemma reportsRemovals_lift {A : Type} (r : Result A) : reportsRemovals (lift r).
Proof.
  intros w r' w' [= <- <-]. split; [reflexivity |].
  exists []. rewrite app_nil_r. split; [reflexivity | constructor].
Qed.

Lemma reportsRemovals_track file position code :
  reportsRemovals (track (TrackRemoveExport file position code)).
Proof.
  intros w r w' [= <- <-]. split; [reflexivity |].
  eexists. split; [reflexivity | repeat constructor].
Qed.

Lemma reportsRemovals_bind {A B : Type} (m : M A) (k : A → M B) :
  reportsRemovals m → (∀ a, reportsRemovals (k a)) → reportsRemovals (m ≫= k).
Proof.
  intros Hm Hk w r w'. rewrite M_bind_unfold.
  destruct (m w) as [ra w1] eqn:Hrun.
  destruct (Hm _ _ _ Hrun) as (Hstore & removals & Hlog & Hall).
  destruct ra as [a| |].
  - intros Hrest. destruct (Hk a _ _ _ Hrest) as (Hstore' & more & Hlog' & Hall').
    split; [congruence |]. exists (removals ++ more).
    rewrite Hlog', Hlog, app_assoc. split; [reflexivity |].
    apply Forall_app. auto.
  - intros [= <- <-]. eauto.
  - intros [= <- <-]. eauto.
Qed.

Lemma reportsRemovals_editNode ts sf c st : reportsRemovals (editNode ts sf c st).
Proof.
  unfold editNode, throw.
  repeat first
    [ apply reportsRemovals_ret
    | apply reportsRemovals_lift
    | apply reportsRemovals_track
    | apply reportsRemovals_bind; [| intros ?]
    | match goal with
      | |- reportsRemovals (if ?b then _ else _) => destruct b
      | |- reportsRemovals (match ?x with _ => _ end) => destruct x
      end ].
Qed.

Lemma reportsRemovals_editLoop ts sf unused :
  ∀ st, reportsRemovals (editLoop ts sf unused st).
Proof.
  induction unused as [|c rest IH]; intros st; simpl.
  - apply reportsRemovals_ret.
  - destruct (aborted st); [apply reportsRemovals_ret |].
    apply reportsRemovals_bind; [apply reportsRemovals_editNode | intros st'; apply IH].
Qed.

Lemma reportsRemovals_getStore {A : Type} (k : FileService.t → M A) :
  (∀ fs, reportsRemovals (k fs)) → reportsRemovals (getStore ≫= k).
Proof. intros H w r w'. rewrite M_bind_unfold. simpl. apply H. Qed.

Lemma reportsRemovals_getTextChanges ts fuel ls file :
  reportsRemovals (getTextChanges ts fuel ls file).
Proof.
  unfold getTextChanges, throw. apply reportsRemovals_getStore. intros fs.
  destruct (getProgram ls fs) as [program|]; [| apply reportsRemovals_lift].
  destruct (getSourceFile program file) as [sf|]; [| apply reportsRemovals_lift].
  apply reportsRemovals_bind; [apply reportsRemovals_lift | intros scan].
  apply reportsRemovals_bind; [apply reportsRemovals_editLoop | intros st].
  apply reportsRemovals_ret.
Qed.

Lemma keepsLog_ret {A : Type} (a : A) : keepsLog (mret a : M A).
Proof. intros w r w' [= <- <-]. reflexivity. Qed.

Lemma keepsLog_lift {A : Type} (r : Result A) : keepsLog (lift r).
Proof. intros w r' w' [= <- <-]. reflexivity. Qed.

Lemma keepsLog_setFile file content : keepsLog (setFile file content).
Proof. intros w r w' [= <- <-]. reflexivity. Qed.

Lemma keepsLog_getStore : keepsLog getStore.
Proof. intros w r w' [= <- <-]. reflexivity. Qed.

Lemma keepsLog_bind {A B : Type} (m : M A) (k : A → M B) :
  keepsLog m → (∀ a, keepsLog (k a)) → keepsLog (m ≫= k).
Proof.
  intros Hm Hk w r w'. rewrite M_bind_unfold.
  destruct (m w) as [ra w1] eqn:Hrun. apply Hm in Hrun.
  destruct ra as [a| |].
  - intros Hrest. apply Hk in Hrest. congruence.
  - intros [= <- <-]. exact Hrun.
  - intros [= <- <-]. exact Hrun.
Qed.

Lemma keepsLog_codeFixLoop acf n ls file :
  ∀ content, keepsLog (codeFixLoop acf n ls file content).
Proof.
  induction n as [|n IH]; intros content; simpl.
  - apply keepsLog_lift.
  - apply keepsLog_bind; [apply keepsLog_setFile | intros _].
    apply keepsLog_bind; [apply keepsLog_getStore | intros fs].
    destruct (bool_decide _); [apply keepsLog_ret | apply IH].
Qed.

(** *** The notifications of the removal loop *)

Lemma removalPass_log ts fuel ls file content w r w' :
  removalPass ts fuel ls file content w = (r, w') →
  ∃ removals, log w' = log w ++ removals ∧ Forall isRemoval removals.
Proof.
  unfold removalPass. rewrite M_bind_unfold.
  destruct (getTextChanges ts fuel ls file w) as [rc w1] eqn:Hchanges.
  destruct (reportsRemovals_getTextChanges _ _ _ _ _ _ _ Hchanges)
    as (_ & removals & Hlog & Hall).
  destruct rc as [result| |]; simpl.
  - intros [= <- <-]. simpl. eauto.
  - intros [= <- <-]. eauto.
  - intros [= <- <-]. eauto.
Qed.

Lemma removalLoop_log ts fuel ls file n :
  ∀ content w r w',
    removalLoop ts n fuel ls file content w = (r, w') →
    ∃ removals, log w' = log w ++ removals ∧ Forall isRemoval removals.
Proof.
  induction n as [|n IH]; intros content w r w'; simpl.
  - intros [= <- <-]. exists []. rewrite app_nil_r. split; [reflexivity | constructor].
  - rewrite M_bind_unfold.
    destruct (removalPass ts fuel ls file content w) as [rp w1] eqn:Hpass.
    destruct (removalPass_log _ _ _ _ _ _ _ _ Hpass) as (removals & Hlog & Hall).
    destruct rp as [[content' result]| |]; simpl.
    + destruct (done result).
      * intros [= <- <-]. eauto.
      * intros Hrest. destruct (IH _ _ _ _ Hrest) as (more & Hlog' & Hall').
        exists (removals ++ more). rewrite Hlog', Hlog, app_assoc.
        split; [reflexivity | apply Forall_app; auto].
    + intros [= <- <-]. eauto.
    + intros [= <- <-]. eauto.
Qed.

(** One target file the program has: the session opens with [start], goes
    on with removals only, and is closed by [end] or by [delete], by
    neither only when processing did not complete. *)
Lemma processFile_session ts acf fuel ls program del codeFix file sf w r w' :
  getSourceFile program file = Some sf →
  processFile ts acf fuel ls program del codeFix file w = (r, w') →
  ∃ removals closing,
    log w' = log w ++ TrackStart file (getFullText sf) :: removals ++ closing
    ∧ Forall isRemoval removals
    ∧ (closing = [] ∨ closing = [TrackEnd file] ∨ closing = [TrackDelete file])
    ∧ (r = Ok tt → closing ≠ [])
    ∧ (closing = [TrackDelete file] →
       del = true ∧ r = Ok tt ∧ store w' !! file = None).
Proof.
  intros Hsf. unfold processFile. rewrite Hsf.
  rewrite M_bind_unfold. simpl. rewrite M_bind_unfold. simpl.
  rewrite M_bind_unfold.
  match goal with
  | |- context [removalLoop ts fuel fuel ls file ?c ?w0] =>
      destruct (removalLoop ts fuel fuel ls file c w0) as [rl w1] eqn:Hloop
  end.
  destruct (removalLoop_log _ _ _ _ _ _ _ _ _ Hloop) as (removals & Hlog & Hall).
  simpl in Hlog. rewrite <- app_assoc in Hlog. simpl in Hlog.
  destruct rl as [[content used]| |]; simpl.
  - destruct (negb used && del) eqn:Hdelete.
    + intros [= <- <-]. simpl. exists removals, [TrackDelete file].
      rewrite Hlog, <- app_assoc. simpl.
      split; [reflexivity |]. split; [exact Hall |].
      split; [auto |]. split; [discriminate |].
      intros _. apply andb_true_iff in Hdelete as [_ ->].
      split; [reflexivity |]. split; [reflexivity |].
      unfold FileService.delete. apply lookup_delete_eq.
    + intros Hrest. exists removals, [TrackEnd file].
      assert (Hkeep : log w' = log w1 ++ [TrackEnd file]).
      { revert Hrest. rewrite M_bind_unfold. simpl.
        match goal with
        | |- context [(?m ≫= ?k) ?w0] =>
            assert (Hk : keepsLog (m ≫= k)); [| intros Hrest; apply Hk in Hrest; exact Hrest]
        end.
        apply keepsLog_bind; [| intros c; apply keepsLog_setFile].
        destruct codeFix; [| apply keepsLog_ret].
        apply keepsLog_bind; [apply keepsLog_codeFixLoop | intros c].
        apply keepsLog_bind; [apply keepsLog_setFile | intros _].
        apply keepsLog_bind; [apply keepsLog_getStore | intros fs].
        apply keepsLog_ret. }
      rewrite Hkeep, Hlog, <- app_assoc. simpl.
      split; [reflexivity |]. split; [exact Hall |].
      split; [auto |]. split; [discriminate |]. discriminate.
  - intros [= <- <-]. exists removals, []. rewrite app_nil_r.
    split; [exact Hlog |]. split; [exact Hall |].
    split; [auto |]. split; discriminate.
  - intros [= <- <-]. exists removals, []. rewrite app_nil_r.
    split; [exact Hlog |]. split; [exact Hall |].
    split; [auto |]. split; discriminate.
Qed.





(** *** A run on stabilized content *)

Lemma substring_full s : String.substring 0 (String.length s) s = s.
Proof. induction s as [|c s IH]; simpl; congruence. Qed.

Lemma sliceFrom_0 s : Js.sliceFrom s 0 = s.
Proof.
  unfold Js.sliceFrom, Js.slice, Js.clamp, Js.len. simpl.
  assert (H : (Z.of_nat (String.length s) <? 0) = false) by (apply Z.ltb_ge; lia).
  rewrite H, Z.min_l, Z.min_id by lia.
  rewrite Z.sub_0_r, Nat2Z.id. simpl. apply substring_full.
Qed.

Lemma applyTextChanges_nil content : applyTextChanges content [] = content.
Proof. apply sliceFrom_0. Qed.

(** A pass over a file without unused candidates: no change, no removal
    reported, [done]. *)
Lemma getTextChanges_stable ts fuel ls file program sf scan w :
  getProgram ls (store w) = Some program →
  getSourceFile program file = Some sf →
  getUnusedExports ts fuel ls sf (store w) = Ok scan →
  nodes scan = [] →
  getTextChanges ts fuel ls file w = (Ok (mkTextChanges [] true (isUsed scan)), w).
Proof.
  intros Hprogram Hsf Hscan Hnodes. unfold getTextChanges.
  rewrite M_bind_unfold. simpl. rewrite Hprogram, Hsf.
  rewrite M_bind_unfold. unfold lift. rewrite Hscan.
  rewrite M_bind_unfold, Hnodes. reflexivity.
Qed.

Lemma removalLoop_stable ts n fuel ls file program sf scan w :
  getProgram ls (store w) = Some program →
  getSourceFile program file = Some sf →
  getUnusedExports ts fuel ls sf (store w) = Ok scan →
  nodes scan = [] →
  removalLoop ts (S n) fuel ls file (FileService.get (store w) file) w
  = (Ok (FileService.get (store w) file, isUsed scan),
     mkWorld (FileService.set (store w) file (FileService.get (store w) file))
             (log w)).
Proof.
  intros Hprogram Hsf Hscan Hnodes. simpl. unfold removalPass.
  rewrite !M_bind_unfold.
  rewrite (getTextChanges_stable _ _ _ _ _ _ _ _ Hprogram Hsf Hscan Hnodes).
  simpl. rewrite applyTextChanges_nil. reflexivity.
Qed.

(** C8 (as amended).  With the secondary pass disabled, a run on a file in
    which the Scanning pass finds no unused candidate completes after that
    one pass with no text change and no removal reported.  Unless deletion
    is requested and the file is not marked used, the content of the file
    in the store is what it was before the run and no other file is
    touched; in the remaining case the file is deleted from the store. *)
Theorem stabilized_run_makes_no_edit ts acf fuel ls file fs program sf scan del :
  getProgram ls fs = Some program →
  getSourceFile program file = Some sf →
  getUnusedExports ts (S fuel) ls sf fs = Ok scan →
  nodes scan = [] →
  run (getTextChanges ts (S fuel) ls file) fs
  = (Ok (mkTextChanges [] true (isUsed scan)), mkWorld fs [])
  ∧ ∃ w',
      run (removeUnusedExport ts acf (S fuel) [file] ls del false) fs = (Ok tt, w')
      ∧ log w' = [TrackStart file (getFullText sf);
                  if negb (isUsed scan) && del then TrackDelete file
                  else TrackEnd file]
      ∧ (negb (isUsed scan) && del = false →
         FileService.get (store w') file = FileService.get fs file
         ∧ ∀ f, f ≠ file → store w' !! f = fs !! f)
      ∧ (negb (isUsed scan) && del = true →
         store w' = FileService.delete fs file).
Proof.
  intros Hprogram Hsf Hscan Hnodes. split.
  { unfold run.
    apply (getTextChanges_stable ts (S fuel) ls file program sf scan (mkWorld fs []));
      assumption. }
  unfold run, removeUnusedExport. rewrite M_bind_unfold. simpl.
  rewrite Hprogram. rewrite M_bind_unfold. unfold processFile. rewrite Hsf.
  rewrite M_bind_unfold. simpl. rewrite M_bind_unfold. simpl.
  rewrite M_bind_unfold.
  pose proof (removalLoop_stable ts fuel (S fuel) ls file program sf scan
                (mkWorld fs [TrackStart file (getFullText sf)])
                Hprogram Hsf Hscan Hnodes) as Hloop.
  simpl in Hloop. rewrite Hloop. simpl.
  destruct (negb (isUsed scan) && del) eqn:Hdelete; simpl.
  - eexists. split; [reflexivity |]. simpl. split; [reflexivity |].
    split; [discriminate |]. intros _.
    unfold FileService.delete, FileService.set. apply delete_insert_eq.
  - eexists. split; [reflexivity |]. simpl. split; [reflexivity |].
    split; [| discriminate]. intros _. split.
    + unfold FileService.get, FileService.set. rewrite lookup_insert_eq. reflexivity.
    + intros f Hf. unfold FileService.set. rewrite !lookup_insert_ne by congruence.
      reflexivity.
Qed.

(** script.ts, which has no exports, without a request for deletion. *)
Lemma stabilized_run_makes_no_edit_witness :
  ∃ w',
    run (removeUnusedExport Scripted.compiler Scripted.noCodeFix 1 [Script.file]
           Script.ls false false) Script.fs = (Ok tt, w')
    ∧ log w' = [TrackStart Script.file Script.content; TrackEnd Script.file]
    ∧ FileService.get (store w') Script.file = Script.content.
Proof.
  destruct (stabilized_run_makes_no_edit
              Scripted.compiler Scripted.noCodeFix 0 Script.ls Script.file Script.fs
              (mkProgram (λ file,
                 match Script.fs !! file with
                 | Some content => Script.parse file content
                 | None => None
                 end))
              Script.sourceFile (mkScan [] false) false
              eq_refl eq_refl eq_refl eq_refl)
    as (_ & w' & Hrun & Hlog & Hkept & _).
  exists w'. split; [exact Hrun |]. split; [exact Hlog |].
  destruct (Hkept eq_refl) as [Hget _]. exact Hget.
Defined.

(** C8 fails as stated: script.ts is stabilized, the secondary pass is
    disabled, and with deletion requested the run removes the file from the
    store instead of leaving its content as it was. *)
Lemma stabilized_file_is_deleted_on_request :
  getUnusedExports Scripted.compiler 5 Script.ls Script.sourceFile Script.fs
  = Ok (mkScan [] false)
  ∧ Script.fs !! Script.file = Some Script.content
  ∧ (let r := run (removeUnusedExport Scripted.compiler Scripted.noCodeFix 5
                     [Script.file] Script.ls true false) Script.fs in
     r.1 = Ok tt
     ∧ store r.2 !! Script.file = None
     ∧ FileService.get (store r.2) Script.file ≠ FileService.get Script.fs Script.file).
Proof.
  vm_compute. repeat split; try reflexivity. discriminate.
Qed.

(** *** Wildcard re-exports *)






Lemma keepsFiles_ret {A : Type} (a : A) : keepsFiles (mret a : M A).
Proof. intros w r w' [= <- <-] f Hf. exact Hf. Qed.

Lemma keepsFiles_lift {A : Type} (r : Result A) : keepsFiles (lift r).
Proof. intros w r' w' [= <- <-] f Hf. exact Hf. Qed.

Lemma keepsFiles_getStore : keepsFiles getStore.
Proof. intros w r w' [= <- <-] f Hf. exact Hf. Qed.

Lemma keepsFiles_track e : keepsFiles (track e).
Proof. intros w r w' [= <- <-] f Hf. exact Hf. Qed.

Lemma keepsFiles_setFile file content : keepsFiles (setFile file content).
Proof.
  intros w r w' [= <- <-] f Hf. simpl. unfold FileService.set.
  destruct (decide (file = f)) as [-> | Hne].
  - rewrite lookup_insert_eq. eauto.
  - rewrite lookup_insert_ne by exact Hne. exact Hf.
Qed.

Lemma keepsFiles_bind {A B : Type} (m : M A) (k : A → M B) :
  keepsFiles m → (∀ a, keepsFiles (k a)) → keepsFiles (m ≫= k).
Proof.
  intros Hm Hk w r w'. rewrite M_bind_unfold.
  destruct (m w) as [ra w1] eqn:Hrun. pose proof (Hm _ _ _ Hrun) as Hkeep.
  destruct ra as [a| |].
  - intros Hrest f Hf. apply (Hk a _ _ _ Hrest), Hkeep, Hf.
  - intros [= <- <-]. exact Hkeep.
  - intros [= <- <-]. exact Hkeep.
Qed.

Lemma keepsFiles_getTextChanges ts fuel ls file :
  keepsFiles (getTextChanges ts fuel ls file).
Proof.
  intros w r w' Hrun f Hf.
  destruct (reportsRemovals_getTextChanges _ _ _ _ _ _ _ Hrun) as (-> & _).
  exact Hf.
Qed.

Lemma keepsFiles_removalLoop ts fuel ls file n :
  ∀ content, keepsFiles (removalLoop ts n fuel ls file content).
Proof.
  induction n as [|n IH]; intros content; simpl.
  - apply keepsFiles_lift.
  - apply keepsFiles_bind.
    + unfold removalPass.
      apply keepsFiles_bind; [apply keepsFiles_getTextChanges | intros result].
      apply keepsFiles_bind; [apply keepsFiles_setFile | intros _].
      apply keepsFiles_ret.
    + intros r. destruct (done r.2); [apply keepsFiles_ret | apply IH].
Qed.

Lemma keepsFiles_codeFixLoop acf n ls file :
  ∀ content, keepsFiles (codeFixLoop acf n ls file content).
Proof.
  induction n as [|n IH]; intros content; simpl.
  - apply keepsFiles_lift.
  - apply keepsFiles_bind; [apply keepsFiles_setFile | intros _].
    apply keepsFiles_bind; [apply keepsFiles_getStore | intros fs].
    destruct (bool_decide _); [apply keepsFiles_ret | apply IH].
Qed.







(** *** Stripping the export marker *)

Lemma findIndex_app p before x rest :
  Forall (λ n, p n = false) before → p x = true →
  findIndex p (before ++ x :: rest) = Some (length before).
Proof.
  intros Hbefore Hx. induction Hbefore as [|b before Hb _ IH]; simpl.
  - rewrite Hx. reflexivity.
  - rewrite Hb, IH. reflexivity.
Qed.

(** The edit for a named declaration: the span from the start of the first
    [SyntaxList] among its children to the start of the child after it, and
    nothing else. *)
Lemma named_declaration_edit ts sf c st w before syntaxList sibling rest :
  isKind (kind (self c)) ExportSpecifier = false →
  isKind (kind (self c)) ExportAssignment = false →
  is_Some (List.find (λ n, isKind (kind n) Identifier) (getChildren (self c))) →
  getChildren (self c) = before ++ syntaxList :: sibling :: rest →
  Forall (λ n, isKind (kind n) SyntaxList = false) before →
  kind syntaxList = SyntaxList →
  ∃ code,
    editNode ts sf c st w
    = (Ok (pushChange st
             (mkTextChange ""
                (mkTextSpan (getStart syntaxList)
                            (getStart sibling - getStart syntaxList)))),
       mkWorld (store w)
               (log w ++ [TrackRemoveExport (fileName sf) (getStart (self c)) code])).
Proof.
  intros Hspec Hassign Hnamed Hchildren Hbefore Hlist.
  unfold editNode. rewrite Hspec, Hassign.
  rewrite (bool_decide_eq_true_2 _ Hnamed), andb_false_r.
  rewrite Hchildren, (findIndex_app _ before syntaxList (sibling :: rest) Hbefore)
    by (rewrite Hlist; reflexivity).
  rewrite !list_lookup_middle by reflexivity.
  replace (before ++ syntaxList :: sibling :: rest)
    with ((before ++ [syntaxList]) ++ sibling :: rest)
    by (rewrite <- app_assoc; reflexivity).
  rewrite list_lookup_middle by (rewrite length_app; simpl; lia).
  eexists. rewrite M_bind_unfold. reflexivity.
Qed.

Lemma substring_add t :
  ∀ a n m,
    String.substring a (n + m) t
    = String.substring a n t +:+ String.substring (a + n) m t.
Proof.
  induction t as [|c t IH]; intros a n m.
  - destruct a, n, m; reflexivity.
  - destruct a as [|a]; simpl.
    + destruct n as [|n]; simpl; [reflexivity |].
      rewrite (IH 0%nat n m). reflexivity.
    + apply IH.
Qed.

(** Applying one removal drops the characters of its span and keeps every
    character before and after it. *)
Lemma single_removal_frame content (s e : Z) :
  0 ≤ s ≤ e → e ≤ Js.len content →
  applyTextChanges content [mkTextChange "" (mkTextSpan s (e - s))]
  = Js.slice content 0 s +:+ Js.sliceFrom content e
  ∧ content
    = Js.slice content 0 s +:+ Js.slice content s e +:+ Js.sliceFrom content e.
Proof.
  intros Hs He. unfold applyTextChanges, applyFrom. simpl.
  replace (s + (e - s)) with e by lia. split; [reflexivity |].
  unfold Js.sliceFrom, Js.slice, Js.clamp, Js.len in *.
  set (n := String.length content) in *.
  assert (H0 : (0 <? 0) = false) by reflexivity.
  assert (H1 : (s <? 0) = false) by (apply Z.ltb_ge; lia).
  assert (H2 : (e <? 0) = false) by (apply Z.ltb_ge; lia).
  assert (H3 : (Z.of_nat n <? 0) = false) by (apply Z.ltb_ge; lia).
  rewrite H0, H1, H2, H3.
  rewrite !Z.min_l by lia.
  rewrite <- (substring_full content) at 1. fold n.
  replace n
    with (Z.to_nat (s - 0) + (Z.to_nat (e - s) + Z.to_nat (Z.of_nat n - e)))%nat
    at 1 by lia.
  rewrite (substring_add content 0). simpl.
  rewrite (substring_add content (Z.to_nat (s - 0))).
  replace (Z.to_nat (s - 0) + Z.to_nat (e - s))%nat with (Z.to_nat e) by lia.
  replace (Z.to_nat (s - 0)) with (Z.to_nat s) by lia.
  reflexivity.
Qed.

(** C7.  [export async function f() {}], with no reference to [f] outside
    jobs.ts: the edit spans the whole modifier list of the declaration, so
    one run removes [async] along with the export marker and leaves
    [function f() {}]. *)
Theorem async_modifier_is_removed_with_export_marker :
  isTarget Async.declaration = true
  ∧ run (getTextChanges Scripted.compiler 5 Async.ls Async.file) Async.fs
    = (Ok (mkTextChanges [mkTextChange "" (mkTextSpan 0 13)] true false),
       mkWorld Async.fs [TrackRemoveExport Async.file 0 "f"])
  ∧ Js.slice Async.content 0 13 = "export async "
  ∧ (let r := run (removeUnusedExport Scripted.compiler Scripted.noCodeFix 5
                     [Async.file] Async.ls false false) Async.fs in
     r.1 = Ok tt
     ∧ FileService.get (store r.2) Async.file = "function f() {}").
Proof.
  split; [reflexivity |]. split; [vm_compute; reflexivity |].
  split; [reflexivity |]. vm_compute. split; reflexivity.
Qed.

(** The scenario of util.ts and main.ts: after one run [helper] has lost its
    export marker and kept its body, [shared] is untouched. *)
Example util_scenario :
  let r := run (removeUnusedExport Scripted.compiler Scripted.noCodeFix 5
                  [Util.file] Util.ls false false) Util.fs in
  r.1 = Ok tt
  ∧ FileService.get (store r.2) Util.file
    = "function helper(){}" +:+ String "010" "" +:+ "export function shared(){}"
  ∧ log r.2 = [TrackStart Util.file Util.content;
               TrackRemoveExport Util.file 0 "helper";
               TrackEnd Util.file].
Proof. vm_compute. repeat split; reflexivity. Qed.

(** *** Several specifiers in one clause *)


Lemma editLoop_aborted ts sf unused st w :
  aborted st = true → editLoop ts sf unused st w = (Ok st, w).
Proof. intros H. destruct unused; simpl; [| rewrite H]; reflexivity. Qed.






(* ===================================================================== *)
(** ** Reference counts *)
(* ===================================================================== *)

Lemma old_visit_unfold ts ls fs sf node result :
  RemoveExport.visit ts ls fs sf node result =
  match result with
  | Some _ => Ok result
  | None =>
      if RemoveExport.isTarget ts sf node then
        found ← RemoveExport.findReferences ls fs sf node;
        match found with
        | None => Ok result
        | Some refs =>
            if RemoveExport.countSelects node (RemoveExport.referenceCount refs)
            then Ok (Some node)
            else forEachM (RemoveExport.visit ts ls fs sf) (forEachChild node) result
        end
      else forEachM (RemoveExport.visit ts ls fs sf) (forEachChild node) result
  end.
Proof. destruct node; reflexivity. Qed.









(* ===================================================================== *)
(** ** Further properties of the classifier *)
(* ===================================================================== *)

(** *** [findFirstNodeOfKind] *)

Lemma firstSome_Some {A : Type} (f : Node → option A) l r :
  firstSome f l = Some r → ∃ c, In c l ∧ f c = Some r.
Proof.
  induction l as [|c rest IH]; simpl; [discriminate |].
  destruct (f c) as [r'|] eqn:Hc.
  - intros [= ->]. eauto.
  - intros H. destruct (IH H) as (c' & Hin & Hc'). eauto.
Qed.

Lemma firstSome_None {A : Type} (f : Node → option A) l :
  firstSome f l = None ↔ ∀ c, In c l → f c = None.
Proof.
  induction l as [|c rest IH]; simpl.
  - split; [intros _ c [] | reflexivity].
  - destruct (f c) as [r|] eqn:Hc.
    + split; [discriminate |]. intros H. rewrite <- Hc. apply H. auto.
    + rewrite IH. split.
      * intros H c' [<- | Hin]; auto.
      * intros H c' Hin. apply H. auto.
Qed.

Lemma findFirstVisitor_unfold k node :
  findFirstVisitor k node
  = if isKind (kind node) k then Some node
    else firstSome (findFirstVisitor k) (forEachChild node).
Proof. destruct node; reflexivity. Qed.

Lemma findFirstVisitor_Some k node :
  ∀ r, findFirstVisitor k node = Some r →
       kind r = k ∧ (r = node ∨ Descendant r node).
Proof.
  induction node as [node IH] using Node_ind. intros r.
  rewrite findFirstVisitor_unfold.
  destruct (isKind (kind node) k) eqn:Hk.
  - intros [= <-]. apply isKind_true in Hk. auto.
  - intros H. apply firstSome_Some in H as (c & Hin & Hc).
    rewrite Forall_forall in IH.
    destruct (IH c (proj2 (list_elem_of_In _ _) Hin) r Hc) as [Hkind [-> | Hd]].
    + split; [exact Hkind |]. right. constructor. exact Hin.
    + split; [exact Hkind |]. right. eapply Descendant_below; eauto.
Qed.

Lemma findFirstVisitor_None k node :
  findFirstVisitor k node = None →
  kind node ≠ k ∧ ∀ d, Descendant d node → kind d ≠ k.
Proof.
  induction node as [node IH] using Node_ind.
  rewrite findFirstVisitor_unfold.
  destruct (isKind (kind node) k) eqn:Hk; [discriminate |].
  intros H. apply isKind_false in Hk. split; [exact Hk |].
  rewrite firstSome_None in H. rewrite Forall_forall in IH.
  intros d Hd. inversion Hd as [d' n' Hin | d' c n' Hin Hbelow]; subst.
  - destruct (IH d (proj2 (list_elem_of_In _ _) Hin) (H d Hin)) as [Hkd _].
    exact Hkd.
  - destruct (IH c (proj2 (list_elem_of_In _ _) Hin) (H c Hin)) as [_ Hall].
    apply Hall, Hbelow.
Qed.

(** X1.  [findFirstNodeOfKind(root, kind)] returns a node of that kind
    strictly below [root], and returns nothing exactly when no node below
    [root] has that kind; [root] itself is never the answer and never
    counts. *)
Theorem findFirstNodeOfKind_finds_a_descendant root k :
  (∀ r, findFirstNodeOfKind root k = Some r → kind r = k ∧ Descendant r root)
  ∧ (findFirstNodeOfKind root k = None ↔ ∀ d, Descendant d root → kind d ≠ k).
Proof.
  assert (Hsome : ∀ r, findFirstNodeOfKind root k = Some r →
                       kind r = k ∧ Descendant r root).
  { intros r H. apply firstSome_Some in H as (c & Hin & Hc).
    destruct (findFirstVisitor_Some _ _ _ Hc) as [Hkind [-> | Hd]].
    - split; [exact Hkind | constructor; exact Hin].
    - split; [exact Hkind | eapply Descendant_below; eauto]. }
  split; [exact Hsome |]. split.
  - intros H d Hd. unfold findFirstNodeOfKind in H. rewrite firstSome_None in H.
    inversion Hd as [d' n' Hin | d' c n' Hin Hbelow]; subst.
    + exact (proj1 (findFirstVisitor_None _ _ (H _ Hin))).
    + exact (proj2 (findFirstVisitor_None _ _ (H _ Hin)) _ Hbelow).
  - intros H. destruct (findFirstNodeOfKind root k) as [r|] eqn:Hr; [| reflexivity].
    destruct (Hsome r eq_refl) as [Hkind Hd]. destruct (H r Hd Hkind).
Qed.

(** In [export const a = 1, b = 2;] the first variable declaration is [a],
    found two levels below the statement. *)
Lemma findFirstNodeOfKind_finds_a_descendant_witness :
  kind Variables.a = VariableDeclaration
  ∧ Descendant Variables.a Variables.statement.
Proof.
  apply (proj1 (findFirstNodeOfKind_finds_a_descendant
                  Variables.statement VariableDeclaration) Variables.a).
  reflexivity.
Defined.

(** *** [Object.fromEntries] over the reference set *)

Lemma referencesKeyValue_snoc refs v :
  referencesKeyValue (refs ++ [v])
  = <[definitionFileName (definition v) := v]> (referencesKeyValue refs).
Proof. unfold referencesKeyValue. rewrite foldl_app. reflexivity. Qed.

Lemma referencesKeyValue_last refs file :
  referencesKeyValue refs !! file
  = last (List.filter
            (λ v, bool_decide (definitionFileName (definition v) = file)) refs).
Proof.
  induction refs as [|v refs IH] using rev_ind; [reflexivity |].
  rewrite referencesKeyValue_snoc, List.filter_app. simpl.
  destruct (decide (definitionFileName (definition v) = file)) as [Heq | Hne].
  - rewrite (bool_decide_eq_true_2 _ Heq), Heq, lookup_insert_eq.
    rewrite last_snoc. reflexivity.
  - rewrite (bool_decide_eq_false_2 _ Hne), lookup_insert_ne by exact Hne.
    rewrite app_nil_r. exact IH.
Qed.

Lemma referencesKeyValue_defined refs file :
  is_Some (referencesKeyValue refs !! file) →
  ∃ v, In v refs ∧ definitionFileName (definition v) = file.
Proof.
  rewrite referencesKeyValue_last.
  intros [v Hv]. apply last_Some in Hv as (l' & Hl').
  assert (Hin : In v (List.filter
                        (λ v, bool_decide
                                (definitionFileName (definition v) = file))
                        refs))
    by (rewrite Hl'; apply in_app_iff; simpl; auto).
  apply filter_In in Hin as [Hin Hfile]. apply bool_decide_eq_true in Hfile.
  eauto.
Qed.

(** X2.  The table [getAncestorFiles] builds from the reference set maps a
    file name to the last entry of the set defined in that file: a later
    entry replaces an earlier one for the same file, and a file has an entry
    exactly when some element of the set is defined in it. *)
Theorem referencesKeyValue_keeps_last_entry refs file :
  referencesKeyValue refs !! file
  = last (List.filter
            (λ v, bool_decide (definitionFileName (definition v) = file)) refs)
  ∧ (is_Some (referencesKeyValue refs !! file)
     ↔ ∃ v, In v refs ∧ definitionFileName (definition v) = file).
Proof.
  split; [apply referencesKeyValue_last |]. split.
  - apply referencesKeyValue_defined.
  - rewrite referencesKeyValue_last. intros (v & Hin & Hfile).
    destruct (last _) as [x|] eqn:Hlast'; [eauto |].
    apply last_None in Hlast'.
    assert (Hin' : In v (List.filter
                           (λ v, bool_decide
                                   (definitionFileName (definition v) = file))
                           refs))
      by (apply filter_In; split; [exact Hin | apply bool_decide_eq_true, Hfile]).
    rewrite Hlast' in Hin'. destruct Hin'.
Qed.

(** Two entries defined in util.ts: the table holds the second. *)
Lemma referencesKeyValue_keeps_last_entry_witness :
  is_Some (referencesKeyValue
             [Scripted.ownSymbol Util.file [];
              Scripted.ownSymbol Util.file [Scripted.sameFileEntry Util.file 16 6]]
           !! Util.file).
Proof.
  apply (proj2 (referencesKeyValue_keeps_last_entry
                  [Scripted.ownSymbol Util.file [];
                   Scripted.ownSymbol Util.file
                     [Scripted.sameFileEntry Util.file 16 6]]
                  Util.file)).
  exists (Scripted.ownSymbol Util.file []). split; [left |]; reflexivity.
Defined.

(** *** [getReexportInFile] *)

Lemma reexportVisitor_unfold anc node result :
  reexportVisitor anc node result
  = if isKind (kind node) ExportSpecifier then
      g ← grandParent (mkLocated node anc);
      match stringLiteralSpecifier g with
      | Some _ => Ok (result ++ [mkLocated node anc])
      | None => Ok result
      end
    else forEachM (reexportVisitor (node :: anc)) (forEachChild node) result.
Proof. destruct node; reflexivity. Qed.

Lemma stringLiteralSpecifier_Some g m :
  stringLiteralSpecifier g = Some m →
  moduleSpecifier g = Some m ∧ kind m = StringLiteral.
Proof.
  unfold stringLiteralSpecifier. destruct (moduleSpecifier g) as [m'|]; [| discriminate].
  destruct (isKind (kind m') StringLiteral) eqn:Hk; [| discriminate].
  intros [= <-]. apply isKind_true in Hk. auto.
Qed.

Lemma reexportVisitor_forwards node :
  ∀ anc result result',
    Forall forwards result →
    reexportVisitor anc node result = Ok result' →
    Forall forwards result'.
Proof.
  induction node as [node IH] using Node_ind. intros anc result result' Hresult.
  rewrite reexportVisitor_unfold.
  destruct (isKind (kind node) ExportSpecifier) eqn:Hkind.
  - intros H. apply bind_Ok_inv in H as (g & Hg & H).
    destruct (stringLiteralSpecifier g) as [m|] eqn:Hm; injection H as <-;
      [| exact Hresult].
    apply Forall_app. split; [exact Hresult |]. repeat constructor.
    + apply isKind_true in Hkind. exact Hkind.
    + destruct (stringLiteralSpecifier_Some _ _ Hm). exists g, m. auto.
  - apply (forEachM_inv (Forall forwards)); [| exact Hresult].
    eapply Forall_impl; [exact IH |]. simpl. intros c Hc s s'. apply Hc.
Qed.

(** X3.  Every node [getReexportInFile] returns is an export specifier of an
    export declaration whose module specifier is a string literal: local
    specifiers ([export { x }]) and malformed module specifiers are left
    out. *)
Theorem getReexportInFile_returns_forwarding_specifiers file specifiers :
  getReexportInFile file = Ok specifiers →
  Forall (λ r, kind (self r) = ExportSpecifier
               ∧ ∃ g m, grandParent r = Ok g
                        ∧ stringLiteralSpecifier g = Some m
                        ∧ moduleSpecifier g = Some m
                        ∧ kind m = StringLiteral)
         specifiers.
Proof.
  unfold getReexportInFile.
  apply (forEachM_inv (Forall forwards)).
  - apply Forall_forall. intros c _ s s'. apply reexportVisitor_forwards.
  - constructor.
Qed.

(** barrel.ts, [export { x } from '';], has one forwarding specifier;
    names.ts, [export { a, b, c };], has none. *)
Lemma getReexportInFile_returns_forwarding_specifiers_witness :
  (∃ r, getReexportInFile EmptySpecifier.sourceFile = Ok [r]
        ∧ kind (self r) = ExportSpecifier)
  ∧ getReexportInFile
      (ExportList.sourceFileFor ExportList.file ["a"; "b"; "c"] None) = Ok [].
Proof.
  split; [| reflexivity].
  destruct (getReexportInFile EmptySpecifier.sourceFile)
    as [[|r [|]]| |] eqn:Hrun; try discriminate.
  exists r. split; [reflexivity |].
  pose proof (getReexportInFile_returns_forwarding_specifiers _ _ Hrun) as Hall.
  inversion Hall as [|r' l' [Hkind _] _]. exact Hkind.
Defined.

(** *** [getAncestorFiles] *)

(** What holds of every file the walk puts into the ancestry. *)
Lemma ancestorLoop_members ts kv fs program fuel :
  ∀ specifier currentFile result ancestors,
    ancestorLoop ts fuel kv fs program specifier currentFile result
    = Ok (Some ancestors) →
    result ⊆ ancestors
    ∧ ∀ f, f ∈ ancestors →
           f ∈ result
           ∨ (Js.truthy f = true ∧ is_Some (kv !! f)
              ∧ is_Some (getSourceFile program f)).
Proof.
  induction fuel as [|fuel IH]; intros specifier currentFile result ancestors.
  - destruct specifier as [sp|]; simpl.
    + destruct (Js.truthy sp); simpl; [discriminate |].
      intros [= <-]. split; [set_solver | auto].
    + intros [= <-]. split; [set_solver | auto].
  - destruct specifier as [sp|]; simpl;
      [| intros [= <-]; split; [set_solver | auto]].
    destruct (Js.truthy sp); simpl;
      [| intros [= <-]; split; [set_solver | auto]].
    destruct (getFileFromModuleSpecifierText ts sp currentFile program fs)
      as [origin|]; [| discriminate].
    destruct (Js.truthy origin) eqn:Horigin; simpl; [| discriminate].
    destruct (kv !! origin) as [symbol|] eqn:Hkv; [| discriminate].
    destruct (getSourceFile program origin) as [sf|] eqn:Hsf; [| discriminate].
    intros H. apply bind_Ok_inv in H as (specifiers & _ & H).
    assert (Hnext : ∀ specifier',
              ancestorLoop ts fuel kv fs program specifier' origin
                           ({[origin]} ∪ result) = Ok (Some ancestors) →
              result ⊆ ancestors
              ∧ ∀ f, f ∈ ancestors →
                     f ∈ result
                     ∨ (Js.truthy f = true ∧ is_Some (kv !! f)
                        ∧ is_Some (getSourceFile program f))).
    { intros specifier' Hloop. destruct (IH _ _ _ _ Hloop) as [Hsub Hmem].
      split; [intros x Hx; apply Hsub, elem_of_union; right; exact Hx |].
      intros f Hf.
      destruct (Hmem f Hf) as [Hin | Hnew]; [| auto].
      apply elem_of_union in Hin as [Hin | Hin]; [| auto].
      apply elem_of_singleton in Hin as ->. right. eauto. }
    destruct (match references symbol with
              | [] => None
              | first :: _ => List.find (matchesSpan first) specifiers
              end) as [r|].
    + apply bind_Ok_inv in H as (g & _ & H).
      destruct (stringLiteralSpecifier g); [| discriminate]. eauto.
    + eauto.
Qed.

(** X4.  When [getAncestorFiles] succeeds, every file of the ancestry it
    returns has a non-empty name, is the defining file of some entry of the
    reference set, and has a source file in the program; and for a non-empty
    module-specifier text the ancestry contains the file that text resolves
    to from the candidate's own file. *)
Theorem getAncestorFiles_members_are_referenced
    ts fuel node refs fs program file ancestors :
  getAncestorFiles ts fuel node refs fs program file = Ok (Some ancestors) →
  (∀ f, f ∈ ancestors →
        Js.truthy f = true
        ∧ (∃ v, In v refs ∧ definitionFileName (definition v) = f)
        ∧ is_Some (getSourceFile program f))
  ∧ (∀ g m, grandParent node = Ok g → stringLiteralSpecifier g = Some m →
            Js.truthy (text m) = true →
            ∃ origin,
              getFileFromModuleSpecifierText ts (text m) file program fs
              = Some origin
              ∧ origin ∈ ancestors).
Proof.
  unfold getAncestorFiles. intros H.
  apply bind_Ok_inv in H as (g & Hg & H).
  destruct (stringLiteralSpecifier g) as [m|] eqn:Hm; [| discriminate].
  split.
  - intros f Hf.
    destruct (proj2 (ancestorLoop_members _ _ _ _ _ _ _ _ _ H) f Hf)
      as [Hin | (Htruthy & Hkv & Hsf)]; [set_solver |].
    split; [exact Htruthy |]. split; [| exact Hsf].
    apply referencesKeyValue_defined, Hkv.
  - intros g' m' Hg' Hm' Htruthy.
    rewrite Hg in Hg'. injection Hg' as <-. rewrite Hm in Hm'. injection Hm' as <-.
    destruct fuel as [|fuel]; simpl in H; rewrite Htruthy in H; simpl in H;
      [discriminate |].
    destruct (getFileFromModuleSpecifierText ts (text m) file program fs)
      as [origin|]; [| discriminate].
    exists origin. split; [reflexivity |].
    destruct (Js.truthy origin); simpl in H; [| discriminate].
    destruct (referencesKeyValue refs !! origin) as [symbol|]; [| discriminate].
    destruct (getSourceFile program origin) as [sf|]; [| discriminate].
    apply bind_Ok_inv in H as (specifiers & _ & H).
    assert (Hnext : ∀ specifier',
              ancestorLoop ts fuel (referencesKeyValue refs) fs program
                           specifier' origin ({[origin]} ∪ ∅)
              = Ok (Some ancestors) → origin ∈ ancestors).
    { intros specifier' Hloop.
      apply (proj1 (ancestorLoop_members _ _ _ _ _ _ _ _ _ Hloop)). set_solver. }
    destruct (match references symbol with
              | [] => None
              | first :: _ => List.find (matchesSpan first) specifiers
              end) as [r|].
    + apply bind_Ok_inv in H as (g' & _ & H).
      destruct (stringLiteralSpecifier g'); [| discriminate]. eauto.
    + eauto.
Qed.

(** A successful ancestry over a chain of one hop: [export { x } from './m']
    resolved to a file that is in the reference set and in the program. *)
Lemma getAncestorFiles_members_are_referenced_witness :
  let ts := mkTypeScript Scripted.noComments
              (λ specifier file program fs,
                 if bool_decide (specifier = "./m") then Some "/m.ts" else None)
              (λ name text, Scripted.sourceFileOf name text []) Scripted.print in
  let program := mkProgram (λ f, if bool_decide (f = "/m.ts")
                                 then Some (Scripted.sourceFileOf "/m.ts" "" [])
                                 else None) in
  let c := mkLocated (Scripted.leaf ExportSpecifier 8 9 10 "")
             [Scripted.leaf NamedExports 6 7 12 "";
              mkNode ExportDeclaration 0 0 25 "" None
                (Some (Scripted.leaf StringLiteral 17 18 24 "./m")) [] []] in
  getAncestorFiles ts 3 c [Scripted.ownSymbol "/m.ts" []] ∅ program "/barrel.ts"
  = Ok (Some ({["/m.ts"]} : gset string))
  ∧ Js.truthy "/m.ts" = true
  ∧ (∃ v, In v [Scripted.ownSymbol "/m.ts" []]
          ∧ definitionFileName (definition v) = "/m.ts")
  ∧ is_Some (getSourceFile program "/m.ts").
Proof.
  intros ts program c.
  assert (H : getAncestorFiles ts 3 c [Scripted.ownSymbol "/m.ts" []] ∅ program
                               "/barrel.ts"
              = Ok (Some ({["/m.ts"]} : gset string)))
    by (vm_compute; reflexivity).
  split; [exact H |].
  apply (proj1 (getAncestorFiles_members_are_referenced _ _ _ _ _ _ _ _ H)).
  apply elem_of_singleton. reflexivity.
Defined.

(** *** What the scan can throw *)

Lemma forEachM_throws {S : Type} (P : string → Prop) (f : Node → S → Result S)
    children :
  Forall (λ c, ∀ s msg, f c s = Throw msg → P msg) children →
  ∀ s msg, forEachM f children s = Throw msg → P msg.
Proof.
  induction 1 as [|c rest Hc _ IH]; simpl; intros s msg; [discriminate |].
  destruct (f c s) as [s'| msg' |] eqn:Hrun; simpl.
  - apply IH.
  - intros [= <-]. eapply Hc, Hrun.
  - discriminate.
Qed.

Lemma grandParent_throws c msg : grandParent c = Throw msg → msg = "TypeError".
Proof.
  unfold grandParent. destruct (ancestors c) as [|p [|g rest]]; intros [= <-];
    reflexivity.
Qed.

Lemma reexportVisitor_throws node :
  ∀ anc result msg, reexportVisitor anc node result = Throw msg → msg = "TypeError".
Proof.
  induction node as [node IH] using Node_ind. intros anc result msg.
  rewrite reexportVisitor_unfold.
  destruct (isKind (kind node) ExportSpecifier).
  - destruct (grandParent (mkLocated node anc)) as [g| msg' |] eqn:Hg; simpl.
    + destruct (stringLiteralSpecifier g); discriminate.
    + intros [= <-]. apply (grandParent_throws _ _ Hg).
    + discriminate.
  - apply (forEachM_throws (λ msg, msg = "TypeError")).
    eapply Forall_impl; [exact IH |]. simpl. intros c Hc s msg'. apply Hc.
Qed.

Lemma ancestorLoop_throws ts kv fs program fuel :
  ∀ specifier currentFile result msg,
    ancestorLoop ts fuel kv fs program specifier currentFile result = Throw msg →
    msg = "TypeError".
Proof.
  induction fuel as [|fuel IH]; intros specifier currentFile result msg;
    destruct specifier as [sp|]; simpl; try discriminate;
    destruct (Js.truthy sp); simpl; try discriminate.
  destruct (getFileFromModuleSpecifierText ts sp currentFile program fs)
    as [origin|]; [| discriminate].
  destruct (Js.truthy origin); simpl; [| discriminate].
  destruct (kv !! origin) as [symbol|]; [| discriminate].
  destruct (getSourceFile program origin) as [sf|]; [| discriminate].
  destruct (getReexportInFile sf) as [specifiers| msg' |] eqn:Hspecifiers; simpl;
    [| intros [= <-] | discriminate].
  2:{ unfold getReexportInFile in Hspecifiers.
      apply (forEachM_throws (λ msg, msg = "TypeError")) in Hspecifiers;
        [exact Hspecifiers |].
      apply Forall_forall. intros c _ s msg. apply reexportVisitor_throws. }
  assert (Hforward : Forall forwards specifiers).
  { pose proof Hspecifiers as Hvisited. unfold getReexportInFile in Hvisited.
    revert Hvisited. apply (forEachM_inv (Forall forwards)).
    - apply Forall_forall. intros c _ s s'. apply reexportVisitor_forwards.
    - apply List.Forall_nil. }
  destruct (match references symbol with
            | [] => None
            | first :: _ => List.find (matchesSpan first) specifiers
            end) as [r|] eqn:Hfind; [| apply IH].
  assert (Hin : In r specifiers).
  { destruct (references symbol) as [|first rest]; [discriminate |].
    apply find_some in Hfind as [Hin _]. exact Hin. }
  rewrite Forall_forall in Hforward.
  destruct (Hforward r (proj2 (list_elem_of_In _ _) Hin))
    as (_ & g & m & Hg & Hm & _).
  rewrite Hg. simpl. rewrite Hm. apply IH.
Qed.

Lemma findReferences_on_target ls fs sf node :
  isTarget node = true → ∃ found, findReferences ls fs sf node = Ok found.
Proof.
  unfold isTarget, findReferences, isDeclarationKind.
  destruct (kind node); simpl; try discriminate; intros _;
    try (eexists; reflexivity).
  - destruct (findFirstNodeOfKind node VariableDeclaration); eexists; reflexivity.
  - destruct (List.find _ _); eexists; reflexivity.
Qed.

Lemma visitTarget_throws ts fuel ls fs program sf c st msg :
  isTarget (self c) = true →
  visitTarget ts fuel ls fs program sf c st = Throw msg → msg = "TypeError".
Proof.
  intros Htarget. unfold visitTarget.
  destruct (Js.includes _ _); [discriminate |].
  destruct (findReferences_on_target ls fs sf _ Htarget) as (found & ->). simpl.
  destruct found as [refs|]; [| discriminate].
  destruct (isKind (kind (self c)) ExportSpecifier).
  - destruct (grandParent c) as [g| msg' |] eqn:Hg; simpl;
      [| intros [= <-]; apply (grandParent_throws _ _ Hg) | discriminate].
    destruct (bool_decide (is_Some (moduleSpecifier g))); [| discriminate].
    unfold getAncestorFiles. rewrite Hg. simpl.
    destruct (stringLiteralSpecifier g); [| discriminate].
    destruct (ancestorLoop _ _ _ _ _ _ _ _) as [[a|]| msg' |] eqn:Hloop; simpl;
      try discriminate.
    intros [= <-]. apply (ancestorLoop_throws _ _ _ _ _ _ _ _ _ Hloop).
  - simpl. discriminate.
Qed.

Lemma visit_throws ts fuel ls fs program sf node :
  ∀ anc st msg,
    visit ts fuel ls fs program sf anc node st = Throw msg → msg = "TypeError".
Proof.
  induction node as [node IH] using Node_ind. intros anc st msg.
  rewrite visit_unfold.
  destruct (isWildcard node); [discriminate |].
  destruct (isTarget node) eqn:Htarget.
  - apply visitTarget_throws. exact Htarget.
  - apply (forEachM_throws (λ msg, msg = "TypeError")).
    eapply Forall_impl; [exact IH |]. simpl. intros c Hc s msg'. apply Hc.
Qed.

(** X5.  The scan of a file throws only when the program is missing or when
    an export specifier has no export declaration two levels above it (the
    [TypeError] of reading [parent.parent] of a malformed tree).  The two
    defensive errors of the source, [unexpected node type] in
    [findReferences] and [unexpected reexportNode] in [getAncestorFiles],
    are never raised. *)
Theorem getUnusedExports_throws_only ts fuel ls sf fs msg :
  getUnusedExports ts fuel ls sf fs = Throw msg →
  msg = "program not found" ∨ msg = "TypeError".
Proof.
  unfold getUnusedExports.
  destruct (getProgram ls fs) as [program|]; [| intros [= <-]; auto].
  intros H. right. revert H.
  apply (forEachM_throws (λ msg, msg = "TypeError")).
  apply Forall_forall. intros c _ s msg'. apply visit_throws.
Qed.

(** A service without a program: the scan of util.ts throws. *)
Lemma getUnusedExports_throws_only_witness :
  getUnusedExports Scripted.compiler 5
    (mkLanguageService (λ _, None) Util.index) Util.sourceFile Util.fs
  = Throw "program not found"
  ∧ ("program not found" = "program not found"
     ∨ "program not found" = "TypeError").
Proof.
  split; [reflexivity |].
  apply (getUnusedExports_throws_only
           Scripted.compiler 5
           (mkLanguageService (λ _, None) Util.index) Util.sourceFile Util.fs).
  reflexivity.
Defined.

(** *** What the scan collects *)

Lemma visitTarget_sound ts fuel ls fs program sf c st st' :
  visitTarget ts fuel ls fs program sf c st = Ok st' →
  st' = st ∨ st' = markUsed st
  ∨ (st' = pushNode st c
     ∧ Js.includes (getLeadingComment ts sf (self c)) IGNORE_COMMENT = false
     ∧ ∃ refs,
         findReferences ls fs sf (self c) = Ok (Some refs)
         ∧ (otherFileReferences (fileName sf) refs = []
            ∨ ∃ ancestors,
                kind (self c) = ExportSpecifier
                ∧ getAncestorFiles ts fuel c refs fs program (fileName sf)
                  = Ok (Some ancestors)
                ∧ nonAncestorReferences (fileName sf) ancestors refs = [])).
Proof.
  unfold visitTarget.
  destruct (Js.includes _ _) eqn:Hskip; [intros [= <-]; auto |].
  destruct (findReferences ls fs sf (self c)) as [[refs|]| |] eqn:Hrefs; simpl;
    try discriminate; [| intros [= <-]; auto].
  assert (Htally : ∀ l : list ReferenceEntry,
            tally st c (length l) = markUsed st
            ∨ (tally st c (length l) = pushNode st c ∧ l = [])).
  { intros [|x l]; simpl; auto. }
  destruct (isKind (kind (self c)) ExportSpecifier) eqn:Hkind.
  - intros H. apply bind_Ok_inv in H as (reexport & Hre & H).
    destruct reexport.
    + apply bind_Ok_inv in H as (ancestors & Hanc & H).
      destruct ancestors as [a|]; injection H as <-; auto.
      destruct (Htally (nonAncestorReferences (fileName sf) a refs))
        as [-> | [-> Hnil]]; auto.
      right. right. split; [reflexivity |]. split; [reflexivity |].
      exists refs. split; [reflexivity |]. right. exists a.
      apply isKind_true in Hkind. auto.
    + injection H as <-.
      destruct (Htally (otherFileReferences (fileName sf) refs))
        as [-> | [-> Hnil]]; auto.
      right. right. eauto 6.
  - simpl. intros [= <-].
    destruct (Htally (otherFileReferences (fileName sf) refs))
      as [-> | [-> Hnil]]; auto.
    right. right. eauto 6.
Qed.

Lemma visit_collects_soundly ts fuel ls fs program sf node :
  ∀ anc st st',
    Forall (soundlyUnused ts fuel ls fs program sf) (nodes st) →
    visit ts fuel ls fs program sf anc node st = Ok st' →
    Forall (soundlyUnused ts fuel ls fs program sf) (nodes st').
Proof.
  induction node as [node IH] using Node_ind. intros anc st st' Hst.
  rewrite visit_unfold.
  destruct (isWildcard node); [intros [= <-]; exact Hst |].
  destruct (isTarget node) eqn:Htarget.
  - intros H. apply visitTarget_sound in H as [-> | [-> | (-> & Hskip & Hrefs)]];
      auto.
    simpl. apply Forall_app. split; [exact Hst |].
    repeat constructor; assumption.
  - apply (forEachM_inv
             (λ s, Forall (soundlyUnused ts fuel ls fs program sf) (nodes s)));
      [| exact Hst].
    eapply Forall_impl; [exact IH |]. simpl. intros c Hc s s'. apply Hc.
Qed.

(** X6.  Soundness of the scan: every candidate [getUnusedExports] collects
    for removal is a target without the skip marker whose reference set was
    returned and holds no reference under a definition in another file, the
    files of a successfully resolved re-export ancestry apart, which are
    discounted for export specifiers only.  So an export with a reference
    recorded from a genuine consumer is never collected. *)
Theorem getUnusedExports_collects_only_unreferenced
    ts fuel ls sf fs program scan :
  getProgram ls fs = Some program →
  getUnusedExports ts fuel ls sf fs = Ok scan →
  Forall (λ c,
            isTarget (self c) = true
            ∧ Js.includes (getLeadingComment ts sf (self c)) IGNORE_COMMENT = false
            ∧ ∃ refs,
                findReferences ls fs sf (self c) = Ok (Some refs)
                ∧ (otherFileReferences (fileName sf) refs = []
                   ∨ ∃ ancestors,
                       kind (self c) = ExportSpecifier
                       ∧ getAncestorFiles ts fuel c refs fs program (fileName sf)
                         = Ok (Some ancestors)
                       ∧ nonAncestorReferences (fileName sf) ancestors refs = []))
         (nodes scan).
Proof.
  intros Hprogram. unfold getUnusedExports. rewrite Hprogram.
  apply (forEachM_inv
           (λ s, Forall (soundlyUnused ts fuel ls fs program sf) (nodes s))).
  - apply Forall_forall. intros c _ s s'. apply visit_collects_soundly.
  - constructor.
Qed.

(** util.ts: the scan collects [helper] alone, and [helper] has no reference
    from another file. *)
Lemma getUnusedExports_collects_only_unreferenced_witness :
  ∃ c refs,
    getUnusedExports Scripted.compiler 5 Util.ls Util.sourceFile Util.fs
    = Ok (mkScan [c] true)
    ∧ self c = Util.helper
    ∧ findReferences Util.ls Util.fs Util.sourceFile (self c) = Ok (Some refs)
    ∧ otherFileReferences Util.file refs = [].
Proof.
  assert (Hscan : getUnusedExports Scripted.compiler 5 Util.ls Util.sourceFile
                                   Util.fs
                  = Ok (mkScan [mkLocated Util.helper [sourceNode Util.sourceFile]]
                               true))
    by (vm_compute; reflexivity).
  pose proof (getUnusedExports_collects_only_unreferenced
                Scripted.compiler 5 Util.ls Util.sourceFile Util.fs _ _
                eq_refl Hscan) as Hall.
  inversion Hall as [|c l (_ & _ & refs & Hrefs & [Hnil | (a & Hkind & _)]) _];
    subst; [| discriminate].
  exists (mkLocated Util.helper [sourceNode Util.sourceFile]), refs.
  split; [exact Hscan |]. split; [reflexivity |]. split; assumption.
Defined.

(** *** Forwarding specifiers with a resolved ancestry *)

Lemma nonAncestorReferences_nil file ancestors refs :
  nonAncestorReferences file ancestors refs = []
  ↔ ∀ v, In v refs → references v ≠ [] →
         definitionFileName (definition v) = file
         ∨ definitionFileName (definition v) ∈ ancestors.
Proof.
  unfold nonAncestorReferences. induction refs as [|v refs IH]; simpl.
  - split; [intros _ v [] | reflexivity].
  - destruct (decide (definitionFileName (definition v) = file)) as [Hfile | Hfile].
    { rewrite (bool_decide_eq_false_2 _ (λ H, H Hfile)). simpl. rewrite IH.
      split; [intros H v' [<- | Hin]; auto | intros H v' Hin; apply H; auto]. }
    rewrite (bool_decide_eq_true_2 _ Hfile). simpl.
    destruct (decide (definitionFileName (definition v) ∈ ancestors)) as [Hanc | Hanc].
    { rewrite (bool_decide_eq_false_2 _ (λ H, H Hanc)). rewrite IH.
      split; [intros H v' [<- | Hin]; auto | intros H v' Hin; apply H; auto]. }
    rewrite (bool_decide_eq_true_2 _ Hanc). simpl. split.
    + intros H. apply app_eq_nil in H as [Hv Hrest].
      intros v' [<- | Hin] Hne; [contradiction |]. apply IH; assumption.
    + intros H.
      assert (Hv : references v = []).
      { destruct (references v) as [|e l] eqn:Hv; [reflexivity |].
        destruct (H v (or_introl eq_refl)); [rewrite Hv; discriminate | |];
          contradiction. }
      rewrite Hv. simpl. apply IH. intros v' Hin. apply H. auto.
Qed.

Lemma nonAncestorReferences_not_nil file ancestors refs :
  nonAncestorReferences file ancestors refs ≠ []
  ↔ ∃ v, In v refs ∧ references v ≠ []
         ∧ definitionFileName (definition v) ≠ file
         ∧ definitionFileName (definition v) ∉ ancestors.
Proof.
  split.
  - unfold nonAncestorReferences. induction refs as [|v refs IH]; simpl;
      [congruence |].
    destruct (decide (definitionFileName (definition v) ≠ file)) as [Hfile | Hfile].
    + destruct (decide (definitionFileName (definition v) ∉ ancestors))
        as [Hanc | Hanc].
      * rewrite (bool_decide_eq_true_2 _ Hfile), (bool_decide_eq_true_2 _ Hanc).
        simpl. destruct (references v) as [|e l] eqn:Hv.
        -- simpl. intros H. destruct (IH H) as (v' & Hin & Hrest). eauto.
        -- intros _. exists v. rewrite Hv. split; [auto |].
           split; [discriminate | auto].
      * rewrite (bool_decide_eq_false_2 _ Hanc), andb_false_r.
        intros H. destruct (IH H) as (v' & Hin & Hrest). eauto.
    + rewrite (bool_decide_eq_false_2 _ Hfile). simpl.
      intros H. destruct (IH H) as (v' & Hin & Hrest). eauto.
  - intros (v & Hin & Hne & Hfile & Hout) Hnil.
    rewrite nonAncestorReferences_nil in Hnil.
    destruct (Hnil v Hin Hne); contradiction.
Qed.

(** X7.  A forwarding export specifier whose ancestry resolves is collected
    as unused exactly when every entry of its reference set that holds a
    reference is defined in the specifier's own file or in a file of the
    ancestry; otherwise the file is marked used.  References recorded in the
    relaying files never count as usage. *)
Theorem forwarding_specifier_unused_iff_only_ancestry_references
    ts fuel ls fs program sf c st refs g ancestors :
  kind (self c) = ExportSpecifier →
  Js.includes (getLeadingComment ts sf (self c)) IGNORE_COMMENT = false →
  findReferences ls fs sf (self c) = Ok (Some refs) →
  grandParent c = Ok g →
  is_Some (moduleSpecifier g) →
  getAncestorFiles ts fuel c refs fs program (fileName sf) = Ok (Some ancestors) →
  (visitTarget ts fuel ls fs program sf c st = Ok (pushNode st c)
   ↔ ∀ v, In v refs → references v ≠ [] →
          definitionFileName (definition v) = fileName sf
          ∨ definitionFileName (definition v) ∈ ancestors)
  ∧ (visitTarget ts fuel ls fs program sf c st = Ok (markUsed st)
     ↔ ∃ v, In v refs ∧ references v ≠ []
            ∧ definitionFileName (definition v) ≠ fileName sf
            ∧ definitionFileName (definition v) ∉ ancestors).
Proof.
  intros Hkind Hskip Hrefs Hg Hm Hanc.
  assert (Hvisit : visitTarget ts fuel ls fs program sf c st
                   = Ok (tally st c
                           (length (nonAncestorReferences (fileName sf)
                                      ancestors refs)))).
  { unfold visitTarget. rewrite Hskip, Hrefs. simpl. rewrite Hkind. simpl.
    rewrite Hg. simpl. rewrite (bool_decide_eq_true_2 _ Hm), Hanc. reflexivity. }
  rewrite Hvisit.
  assert (Hlen : ∀ l : list ReferenceEntry, length l = 0%nat ↔ l = []).
  { intros l. destruct l; simpl; split; intros H; congruence. }
  split.
  - rewrite <- nonAncestorReferences_nil, <- Hlen, <- tally_push.
    split; [intros [= H]; exact H | intros H; f_equal; exact H].
  - transitivity (nonAncestorReferences (fileName sf) ancestors refs ≠ []).
    + rewrite <- Hlen, <- (tally_used st c).
      split; [intros [= H]; exact H | intros H; f_equal; exact H].
    + apply nonAncestorReferences_not_nil.
Qed.

(** The barrel b.ts relays [x] from a.ts and nobody imports it from b.ts:
    the occurrence recorded in a.ts does not count, the specifier is
    unused. *)
Lemma forwarding_specifier_unused_iff_only_ancestry_references_witness :
  getUnusedExports Barrel.compiler 5 (Barrel.ls false) Barrel.sourceFile Barrel.fs
  = Ok (mkScan [Barrel.specifier] false)
  ∧ ∃ program,
      getProgram (Barrel.ls false) Barrel.fs = Some program
      ∧ visitTarget Barrel.compiler 5 (Barrel.ls false) Barrel.fs program
                    Barrel.sourceFile Barrel.specifier (mkScan [] true)
        = Ok (pushNode (mkScan [] true) Barrel.specifier).
Proof.
  split; [vm_compute; reflexivity |].
  eexists. split; [reflexivity |].
  match goal with
  | |- visitTarget _ _ _ _ ?p _ _ _ = _ =>
      assert (Hancestry :
                getAncestorFiles Barrel.compiler 5 Barrel.specifier
                  Barrel.occurrences Barrel.fs p (fileName Barrel.sourceFile)
                = Ok (Some ({[Barrel.origin]} : gset string)))
        by (vm_compute; reflexivity)
  end.
  assert (Hmodule : is_Some (moduleSpecifier
                               (ExportList.declarationNode ["x"] (Some "./a"))))
    by (eexists; reflexivity).
  apply (proj1 (forwarding_specifier_unused_iff_only_ancestry_references
                  Barrel.compiler 5 (Barrel.ls false) Barrel.fs _
                  Barrel.sourceFile Barrel.specifier (mkScan [] true)
                  Barrel.occurrences
                  (ExportList.declarationNode ["x"] (Some "./a"))
                  ({[Barrel.origin]} : gset string)
                  eq_refl eq_refl eq_refl eq_refl Hmodule Hancestry)).
  intros v [<- | [<- | []]] _; simpl; [right; set_solver | left; reflexivity].
Defined.

(** *** Candidates without an answer from the reference index *)

(** X8.  A candidate for which no reference set is obtained is passed over:
    it is neither collected for removal nor does it mark its file used.  An
    export assignment without a [default] keyword among its children
    ([export = x;]) is such a candidate for every language service, which is
    then not asked at all, and so is a variable statement without a
    variable declaration. *)
Theorem candidate_without_references_is_passed_over ts fuel fs program sf anc node st :
  isTarget node = true →
  Js.includes (getLeadingComment ts sf node) IGNORE_COMMENT = false →
  (∀ ls, findReferences ls fs sf node = Ok None →
         visit ts fuel ls fs program sf anc node st = Ok st)
  ∧ (kind node = ExportAssignment →
     List.find (λ n, isKind (kind n) DefaultKeyword) (getChildren node) = None →
     ∀ ls, visit ts fuel ls fs program sf anc node st = Ok st)
  ∧ (kind node = VariableStatement →
     findFirstNodeOfKind node VariableDeclaration = None →
     ∀ ls, visit ts fuel ls fs program sf anc node st = Ok st).
Proof.
  intros Htarget Hskip.
  assert (Hnone : ∀ ls, findReferences ls fs sf node = Ok None →
                        visit ts fuel ls fs program sf anc node st = Ok st).
  { intros ls Hrefs.
    rewrite visit_unfold, (target_not_wildcard _ Htarget), Htarget.
    unfold visitTarget. simpl. rewrite Hskip, Hrefs. reflexivity. }
  split; [exact Hnone |]. split.
  - intros Hkind Hdefault ls. apply Hnone. unfold findReferences.
    rewrite Hkind. simpl. rewrite Hdefault. reflexivity.
  - intros Hkind Hdeclaration ls. apply Hnone. unfold findReferences.
    rewrite Hkind. simpl. rewrite Hdeclaration. reflexivity.
Qed.

(** legacy.ts holds [export = x;] and the index knows a use of it in
    main.ts: the scan passes the assignment over, the file counts as
    unused, and with deletion requested the run deletes it. *)
Lemma candidate_without_references_is_passed_over_witness :
  visit Scripted.compiler 5 ExportEquals.ls ExportEquals.fs
        (mkProgram (λ _, None)) ExportEquals.sourceFile
        [sourceNode ExportEquals.sourceFile] ExportEquals.assignment
        (mkScan [] false)
  = Ok (mkScan [] false)
  ∧ (let r := run (removeUnusedExport Scripted.compiler Scripted.noCodeFix 5
                     [ExportEquals.file] ExportEquals.ls true false)
                  ExportEquals.fs in
     r.1 = Ok tt ∧ store r.2 !! ExportEquals.file = None).
Proof.
  split; [| vm_compute; split; reflexivity].
  apply (proj1 (proj2 (candidate_without_references_is_passed_over
                         Scripted.compiler 5 ExportEquals.fs
                         (mkProgram (λ _, None)) ExportEquals.sourceFile
                         [sourceNode ExportEquals.sourceFile]
                         ExportEquals.assignment (mkScan [] false)
                         eq_refl eq_refl)) eq_refl eq_refl ExportEquals.ls).
Defined.

(* ===================================================================== *)
(** ** Further properties of the text edits *)
(* ===================================================================== *)

(** One edit: one change, one removal reported for the file being edited,
    the store left alone; the change cuts text out unless it is a
    regeneration. *)
Lemma editNode_one_change ts sf c st w st' w' :
  editNode ts sf c st w = (Ok st', w') →
  ∃ change position code,
    changes st' = changes st ++ [change]
    ∧ w' = mkWorld (store w)
                   (log w ++ [TrackRemoveExport (fileName sf) position code])
    ∧ (isRegeneration c = false → newText change = "" ∧ aborted st' = aborted st)
    ∧ (isRegeneration c = true → aborted st' = true).
Proof.
  unfold editNode, isRegeneration, throw, lift.
  destruct (isKind (kind (self c)) ExportSpecifier); simpl.
  - rewrite M_bind_unfold. destruct (parent c) as [p| |]; try discriminate.
    rewrite M_bind_unfold. destruct (grandParent c) as [g| |]; try discriminate.
    destruct (bool_decide (length (elements p) = 1%nat)); simpl;
      rewrite M_bind_unfold; simpl; intros [= <- <-]; simpl;
      do 3 eexists; (split; [reflexivity |]); (split; [reflexivity |]);
      split; try discriminate; auto.
  - destruct (isKind (kind (self c)) ExportAssignment).
    { rewrite M_bind_unfold. simpl. intros [= <- <-]. simpl.
      do 3 eexists. split; [reflexivity |]. split; [reflexivity |].
      split; [auto | discriminate]. }
    destruct (_ && _).
    { rewrite M_bind_unfold. simpl. intros [= <- <-]. simpl.
      do 3 eexists. split; [reflexivity |]. split; [reflexivity |].
      split; [auto | discriminate]. }
    destruct (findIndex _ _) as [i|]; [| discriminate].
    destruct (getChildren (self c) !! i); [| discriminate].
    destruct (getChildren (self c) !! S i); [| discriminate].
    rewrite M_bind_unfold. simpl. intros [= <- <-]. simpl.
    do 3 eexists. split; [reflexivity |]. split; [reflexivity |].
    split; [auto | discriminate].
Qed.

Lemma editLoop_changes ts sf unused :
  ∀ st w st' w',
    aborted st = false →
    editLoop ts sf unused st w = (Ok st', w') →
    ∃ added events,
      changes st' = changes st ++ added
      ∧ store w' = store w
      ∧ log w' = log w ++ events
      ∧ length events = length added
      ∧ removalsOf (fileName sf) events
      ∧ (aborted st' = false → Forall isPureRemoval added)
      ∧ (aborted st' = true →
         ∃ init regeneration,
           added = init ++ [regeneration] ∧ Forall isPureRemoval init).
Proof.
  induction unused as [|c rest IH]; intros st w st' w' Hst; simpl.
  - intros [= <- <-]. exists [], []. rewrite !app_nil_r.
    repeat split; auto; try constructor. congruence.
  - rewrite Hst. intros Hrun.
    apply M_bind_Ok_inv in Hrun as (st1 & w1 & Hnode & Hrest).
    destruct (editNode_one_change _ _ _ _ _ _ _ Hnode)
      as (change & position & code & Hchanges & -> & Hpure & Hregen).
    assert (Hevent : removalsOf (fileName sf)
                       [TrackRemoveExport (fileName sf) position code])
      by (repeat constructor; eauto).
    destruct (isRegeneration c).
    + specialize (Hregen eq_refl).
      rewrite (editLoop_aborted _ _ _ _ _ Hregen) in Hrest.
      injection Hrest as <- <-.
      exists [change], [TrackRemoveExport (fileName sf) position code]. simpl.
      repeat split; auto; [congruence |]. intros _. exists [], change.
      split; [reflexivity | constructor].
    + destruct (Hpure eq_refl) as [Hnew Hab]. rewrite Hst in Hab.
      destruct (IH _ _ _ _ Hab Hrest)
        as (added & events & Hadd & Hstore & Hlog & Hlen & Hall & Hdone & Hlast).
      exists (change :: added),
             (TrackRemoveExport (fileName sf) position code :: events).
      simpl in *. rewrite Hadd, Hchanges, Hlog, <- !app_assoc. simpl.
      repeat split; auto.
      * apply List.Forall_cons; [eauto | exact Hall].
      * intros H. destruct (Hlast H) as (init & regeneration & -> & Hinit).
        exists (change :: init), regeneration.
        split; [reflexivity | apply List.Forall_cons; auto].
Qed.

Lemma getTextChanges_changes ts fuel ls file w result w' :
  getTextChanges ts fuel ls file w = (Ok result, w') →
  ∃ program sf events,
    getProgram ls (store w) = Some program
    ∧ getSourceFile program file = Some sf
    ∧ store w' = store w
    ∧ log w' = log w ++ events
    ∧ length events = length (result_changes result)
    ∧ removalsOf (fileName sf) events
    ∧ (done result = true → Forall isPureRemoval (result_changes result))
    ∧ (done result = false →
       ∃ init regeneration,
         result_changes result = init ++ [regeneration]
         ∧ Forall isPureRemoval init).
Proof.
  unfold getTextChanges. rewrite M_bind_unfold. simpl.
  destruct (getProgram ls (store w)) as [program|] eqn:Hprogram; [| discriminate].
  destruct (getSourceFile program file) as [sf|] eqn:Hsf; [| discriminate].
  intros Hrun. apply M_bind_Ok_inv in Hrun as (scan & w1 & Hscan & Hrun).
  apply M_bind_Ok_inv in Hrun as (st & w2 & Hloop & Hrun).
  injection Hrun as <- <-. unfold lift in Hscan. injection Hscan as _ <-.
  apply editLoop_changes in Hloop
    as (added & events & Hadd & Hstore & Hlog & Hlen & Hall & Hdone & Hlast);
    [| reflexivity].
  simpl in Hadd. subst added. exists program, sf, events. simpl.
  repeat split; auto.
  - intros H. apply Hdone, negb_true_iff, H.
  - intros H. apply Hlast, negb_false_iff, H.
Qed.

(** X9.  [getTextChanges] never writes to the file store; it reports to the
    tracker exactly one removal per text change it returns, each for the
    file being edited, in the order of the changes. *)
Theorem getTextChanges_reports_each_change_once ts fuel ls file w result w' :
  getTextChanges ts fuel ls file w = (Ok result, w') →
  store w' = store w
  ∧ ∃ program sf events,
      getProgram ls (store w) = Some program
      ∧ getSourceFile program file = Some sf
      ∧ log w' = log w ++ events
      ∧ length events = length (result_changes result)
      ∧ Forall (λ e, ∃ position code,
                     e = TrackRemoveExport (fileName sf) position code) events.
Proof.
  intros H. apply getTextChanges_changes in H
    as (program & sf & events & Hp & Hsf & Hstore & Hlog & Hlen & Hall & _).
  split; [exact Hstore |]. exists program, sf, events. auto.
Qed.

(** The pass over util.ts: one change, one removal reported. *)
Lemma getTextChanges_reports_each_change_once_witness :
  ∃ result w',
    run (getTextChanges Scripted.compiler 5 Util.ls Util.file) Util.fs
    = (Ok result, w')
    ∧ store w' = Util.fs
    ∧ length (log w') = length (result_changes result).
Proof.
  destruct (run (getTextChanges Scripted.compiler 5 Util.ls Util.file) Util.fs)
    as [[result| |] w'] eqn:Hrun; try discriminate.
  exists result, w'. split; [reflexivity |]. unfold run in Hrun.
  destruct (getTextChanges_reports_each_change_once _ _ _ _ _ _ _ Hrun)
    as (Hstore & program & sf & events & _ & _ & Hlog & Hlen & _).
  simpl in Hstore, Hlog. rewrite Hlog. auto.
Defined.

(** X10.  Every text change of a pass only cuts text out (its replacement is
    empty), except the last one of a pass that is not [done], which is the
    regenerated export declaration: replacement text enters a batch only as
    its final change. *)
Theorem getTextChanges_changes_are_removals ts fuel ls file w result w' :
  getTextChanges ts fuel ls file w = (Ok result, w') →
  (done result = true → Forall (λ c, newText c = "") (result_changes result))
  ∧ (done result = false →
     ∃ init regeneration,
       result_changes result = init ++ [regeneration]
       ∧ Forall (λ c, newText c = "") init).
Proof.
  intros H. apply getTextChanges_changes in H
    as (program & sf & events & _ & _ & _ & _ & _ & _ & Hdone & Hlast).
  auto.
Qed.

(** The pass over names.ts with every name unused: not [done], a single
    change, the regenerated declaration. *)
Lemma getTextChanges_changes_are_removals_witness :
  ∃ result init regeneration,
    (run (getTextChanges ExportList.compiler 5 (ExportList.ls [])
            ExportList.file) ExportList.fs).1 = Ok result
    ∧ result_changes result = init ++ [regeneration]
    ∧ Forall (λ c, newText c = "") init
    ∧ newText regeneration = "export { b, c };".
Proof.
  destruct (run (getTextChanges ExportList.compiler 5 (ExportList.ls [])
                   ExportList.file) ExportList.fs)
    as [[result| |] w'] eqn:Hrun; try discriminate.
  unfold run in Hrun.
  destruct (proj2 (getTextChanges_changes_are_removals _ _ _ _ _ _ _ Hrun))
    as (init & regeneration & Hchanges & Hinit).
  { vm_compute in Hrun. injection Hrun as <- _. reflexivity. }
  exists result, init, regeneration.
  split; [reflexivity |]. split; [exact Hchanges |]. split; [exact Hinit |].
  vm_compute in Hrun. injection Hrun as <- _. simpl in Hchanges.
  apply (app_inj_tail [] init) in Hchanges as [_ <-]. reflexivity.
Defined.

(* ===================================================================== *)
(** ** Further properties of the driver *)
(* ===================================================================== *)

(** *** Which files a run touches *)

Lemma touchesOnly_ret {A : Type} files (a : A) : touchesOnly files (mret a : M A).
Proof. intros w r w' [= <- <-] f _. reflexivity. Qed.

Lemma touchesOnly_lift {A : Type} files (r : Result A) : touchesOnly files (lift r).
Proof. intros w r' w' [= <- <-] f _. reflexivity. Qed.

Lemma touchesOnly_getStore files : touchesOnly files getStore.
Proof. intros w r w' [= <- <-] f _. reflexivity. Qed.

Lemma touchesOnly_track files e : touchesOnly files (track e).
Proof. intros w r w' [= <- <-] f _. reflexivity. Qed.

Lemma touchesOnly_setFile files file content :
  In file files → touchesOnly files (setFile file content).
Proof.
  intros Hin w r w' [= <- <-] f Hf. simpl. unfold FileService.set.
  apply lookup_insert_ne. intros <-. contradiction.
Qed.

Lemma touchesOnly_deleteFile files file :
  In file files → touchesOnly files (deleteFile file).
Proof.
  intros Hin w r w' [= <- <-] f Hf. simpl. unfold FileService.delete.
  apply lookup_delete_ne. intros <-. contradiction.
Qed.

Lemma touchesOnly_bind {A B : Type} files (m : M A) (k : A → M B) :
  touchesOnly files m → (∀ a, touchesOnly files (k a)) →
  touchesOnly files (m ≫= k).
Proof.
  intros Hm Hk w r w'. rewrite M_bind_unfold.
  destruct (m w) as [ra w1] eqn:Hrun. pose proof (Hm _ _ _ Hrun) as Hkeep.
  destruct ra as [a| |].
  - intros Hrest f Hf. rewrite (Hk a _ _ _ Hrest f Hf). apply Hkeep, Hf.
  - intros [= <- <-]. exact Hkeep.
  - intros [= <- <-]. exact Hkeep.
Qed.

Lemma touchesOnly_getTextChanges ts files fuel ls file :
  touchesOnly files (getTextChanges ts fuel ls file).
Proof.
  intros w r w' Hrun f _.
  destruct (reportsRemovals_getTextChanges _ _ _ _ _ _ _ Hrun) as (-> & _).
  reflexivity.
Qed.

Lemma touchesOnly_removalLoop ts files fuel ls file n :
  In file files →
  ∀ content, touchesOnly files (removalLoop ts n fuel ls file content).
Proof.
  intros Hin. induction n as [|n IH]; intros content; simpl.
  - apply touchesOnly_lift.
  - apply touchesOnly_bind.
    + unfold removalPass.
      apply touchesOnly_bind; [apply touchesOnly_getTextChanges | intros result].
      apply touchesOnly_bind; [apply touchesOnly_setFile, Hin | intros _].
      apply touchesOnly_ret.
    + intros r. destruct (done r.2); [apply touchesOnly_ret | apply IH].
Qed.

Lemma touchesOnly_codeFixLoop acf files n ls file :
  In file files →
  ∀ content, touchesOnly files (codeFixLoop acf n ls file content).
Proof.
  intros Hin. induction n as [|n IH]; intros content; simpl.
  - apply touchesOnly_lift.
  - apply touchesOnly_bind; [apply touchesOnly_setFile, Hin | intros _].
    apply touchesOnly_bind; [apply touchesOnly_getStore | intros fs].
    destruct (bool_decide _); [apply touchesOnly_ret | apply IH].
Qed.

Lemma touchesOnly_processFile ts acf files fuel ls program del codeFix file :
  In file files →
  touchesOnly files (processFile ts acf fuel ls program del codeFix file).
Proof.
  intros Hin. unfold processFile.
  destruct (getSourceFile program file) as [sf|]; [| apply touchesOnly_ret].
  apply touchesOnly_bind; [apply touchesOnly_track | intros _].
  apply touchesOnly_bind; [apply touchesOnly_getStore | intros fs].
  apply touchesOnly_bind; [apply touchesOnly_removalLoop, Hin | intros r].
  destruct (negb r.2 && del).
  - apply touchesOnly_bind; [apply touchesOnly_deleteFile, Hin | intros _].
    apply touchesOnly_track.
  - apply touchesOnly_bind; [apply touchesOnly_track | intros _].
    apply touchesOnly_bind; [| intros c; apply touchesOnly_setFile, Hin].
    destruct codeFix; [| apply touchesOnly_ret].
    apply touchesOnly_bind; [apply touchesOnly_codeFixLoop, Hin | intros c].
    apply touchesOnly_bind; [apply touchesOnly_setFile, Hin | intros _].
    apply touchesOnly_bind; [apply touchesOnly_getStore | intros fs'].
    apply touchesOnly_ret.
Qed.

Lemma touchesOnly_forFiles ts acf files fuel ls program del codeFix targets :
  (∀ f, In f targets → In f files) →
  touchesOnly files (forFiles ts acf fuel ls program del codeFix targets).
Proof.
  induction targets as [|file rest IH]; intros Hsub; simpl.
  - apply touchesOnly_ret.
  - apply touchesOnly_bind.
    + apply touchesOnly_processFile, Hsub. left. reflexivity.
    + intros _. apply IH. intros f Hf. apply Hsub. right. exact Hf.
Qed.

(** X11.  [removeUnusedExport] writes and deletes target files only: every
    file of the store that is not in the target list holds after the run
    what it held before, whatever the flags and however the run ends. *)
Theorem removeUnusedExport_touches_only_targets
    ts acf fuel targetFile ls del codeFix fs r w' :
  run (removeUnusedExport ts acf fuel targetFile ls del codeFix) fs = (r, w') →
  ∀ f, ¬ In f targetFile → store w' !! f = fs !! f.
Proof.
  unfold run. intros Hrun f Hf.
  assert (Htouch : touchesOnly targetFile
                     (removeUnusedExport ts acf fuel targetFile ls del codeFix)).
  { unfold removeUnusedExport.
    apply touchesOnly_bind; [apply touchesOnly_getStore | intros fs'].
    destruct (getProgram ls fs'); [| apply touchesOnly_lift].
    apply touchesOnly_forFiles. auto. }
  apply (Htouch _ _ _ Hrun f Hf).
Qed.

(** The run over util.ts leaves main.ts alone. *)
Lemma removeUnusedExport_touches_only_targets_witness :
  let r := run (removeUnusedExport Scripted.compiler Scripted.noCodeFix 5
                  [Util.file] Util.ls false false) Util.fs in
  store r.2 !! "/main.ts" = Util.fs !! "/main.ts".
Proof.
  intros r.
  apply (removeUnusedExport_touches_only_targets
           Scripted.compiler Scripted.noCodeFix 5 [Util.file] Util.ls false false
           Util.fs r.1 r.2).
  - subst r. apply surjective_pairing.
  - intros [H | []]. discriminate.
Defined.

(** *** Deletion only on request *)

Lemma reportsNoDeletion_ret {A : Type} (a : A) : reportsNoDeletion (mret a : M A).
Proof.
  intros w r w' [= <- <-]. exists []. rewrite app_nil_r. split; [reflexivity | constructor].
Qed.

Lemma reportsNoDeletion_bind {A B : Type} (m : M A) (k : A → M B) :
  reportsNoDeletion m → (∀ a, reportsNoDeletion (k a)) →
  reportsNoDeletion (m ≫= k).
Proof.
  intros Hm Hk w r w'. rewrite M_bind_unfold.
  destruct (m w) as [ra w1] eqn:Hrun.
  destruct (Hm _ _ _ Hrun) as (events & Hlog & Hall).
  destruct ra as [a| |].
  - intros Hrest. destruct (Hk a _ _ _ Hrest) as (more & Hlog' & Hall').
    exists (events ++ more). rewrite Hlog', Hlog, app_assoc.
    split; [reflexivity | apply Forall_app; auto].
  - intros [= <- <-]. eauto.
  - intros [= <- <-]. eauto.
Qed.

Lemma reportsNoDeletion_processFile ts acf fuel ls program codeFix file :
  reportsNoDeletion (processFile ts acf fuel ls program false codeFix file).
Proof.
  intros w r w' Hrun.
  destruct (getSourceFile program file) as [sf|] eqn:Hsf.
  - destruct (processFile_session _ _ _ _ _ _ _ _ _ _ _ _ Hsf Hrun)
      as (removals & closing & Hlog & Hall & Hshape & _ & Hdelete).
    exists (TrackStart file (getFullText sf) :: removals ++ closing).
    split; [exact Hlog |].
    apply List.Forall_cons; [discriminate |]. apply Forall_app. split.
    + eapply Forall_impl; [exact Hall |]. simpl.
      intros e He f ->. exact He.
    + destruct Hshape as [-> | [-> | ->]]; [constructor | |].
      * repeat constructor. discriminate.
      * destruct (Hdelete eq_refl) as [Hdel _]. discriminate.
  - unfold processFile in Hrun. rewrite Hsf in Hrun.
    apply (reportsNoDeletion_ret tt _ _ _ Hrun).
Qed.

Lemma keepsFiles_processFile ts acf fuel ls program codeFix file :
  keepsFiles (processFile ts acf fuel ls program false codeFix file).
Proof.
  unfold processFile.
  destruct (getSourceFile program file) as [sf|]; [| apply keepsFiles_ret].
  apply keepsFiles_bind; [apply keepsFiles_track | intros _].
  apply keepsFiles_bind; [apply keepsFiles_getStore | intros fs].
  apply keepsFiles_bind; [apply keepsFiles_removalLoop | intros r].
  rewrite andb_false_r.
  apply keepsFiles_bind; [apply keepsFiles_track | intros _].
  apply keepsFiles_bind; [| intros c; apply keepsFiles_setFile].
  destruct codeFix; [| apply keepsFiles_ret].
  apply keepsFiles_bind; [apply keepsFiles_codeFixLoop | intros c].
  apply keepsFiles_bind; [apply keepsFiles_setFile | intros _].
  apply keepsFiles_bind; [apply keepsFiles_getStore | intros fs'].
  apply keepsFiles_ret.
Qed.

(** X12.  Without [deleteUnusedFile] the driver deletes nothing: every file
    the store held before the run is still in it afterwards, and no
    deletion is reported to the tracker, whatever the files contain and
    however the run ends. *)
Theorem removeUnusedExport_deletes_only_on_request
    ts acf fuel targetFile ls codeFix fs r w' :
  run (removeUnusedExport ts acf fuel targetFile ls false codeFix) fs = (r, w') →
  (∀ f, is_Some (fs !! f) → is_Some (store w' !! f))
  ∧ ∀ f, ¬ In (TrackDelete f) (log w').
Proof.
  unfold run, removeUnusedExport. rewrite M_bind_unfold. simpl.
  destruct (getProgram ls fs) as [program|].
  2:{ intros [= <- <-]. simpl. split; [auto | intros f []]. }
  assert (Hkeep : keepsFiles (forFiles ts acf fuel ls program false codeFix targetFile)).
  { induction targetFile as [|file rest IH]; simpl; [apply keepsFiles_ret |].
    apply keepsFiles_bind; [apply keepsFiles_processFile | intros _; exact IH]. }
  assert (Hlog : reportsNoDeletion
                   (forFiles ts acf fuel ls program false codeFix targetFile)).
  { clear Hkeep.
    induction targetFile as [|file rest IH]; simpl; [apply reportsNoDeletion_ret |].
    apply reportsNoDeletion_bind;
      [apply reportsNoDeletion_processFile | intros _; exact IH]. }
  intros Hrun. split.
  - apply (Hkeep _ _ _ Hrun).
  - destruct (Hlog _ _ _ Hrun) as (events & -> & Hall). simpl.
    intros f Hin. rewrite Forall_forall in Hall.
    apply (Hall _ (proj2 (list_elem_of_In _ _) Hin) f). reflexivity.
Qed.

(** script.ts has no exports; without the request it stays in the store. *)
Lemma removeUnusedExport_deletes_only_on_request_witness :
  let r := run (removeUnusedExport Scripted.compiler Scripted.noCodeFix 5
                  [Script.file] Script.ls false false) Script.fs in
  is_Some (store r.2 !! Script.file).
Proof.
  intros r.
  apply (proj1 (removeUnusedExport_deletes_only_on_request
                  Scripted.compiler Scripted.noCodeFix 5 [Script.file] Script.ls
                  false Script.fs r.1 r.2 (surjective_pairing _))).
  eexists. reflexivity.
Defined.

(** *** The secondary pass *)

(** X13.  The loop of the secondary pass stops only at a fixed point of the
    delete fix: the content it returns is what the store holds for the file
    at that moment, applying the fix to that store gives the same content
    again, and the tracker has heard nothing of it. *)
Theorem codeFixLoop_stops_at_fixed_point acf n ls file content w c w' :
  codeFixLoop acf n ls file content w = (Ok c, w') →
  FileService.get (store w') file = c
  ∧ acf fixIdDelete file ls (store w') = c
  ∧ log w' = log w.
Proof.
  revert content w. induction n as [|n IH]; intros content w; simpl;
    [discriminate |].
  rewrite M_bind_unfold. simpl. rewrite M_bind_unfold. simpl.
  destruct (bool_decide
              (acf fixIdDelete file ls (FileService.set (store w) file content)
               = content)) eqn:Hfixed.
  - intros [= <- <-]. simpl. apply bool_decide_eq_true in Hfixed.
    split; [| auto].
    unfold FileService.get, FileService.set. rewrite lookup_insert_eq. reflexivity.
  - intros H. destruct (IH _ _ H) as (Hget & Hfix & Hlog). auto.
Qed.

(** A fix that strips one leading [x] per round: the loop runs until none is
    left. *)
Lemma codeFixLoop_stops_at_fixed_point_witness :
  let acf := λ (_ : FixId) (file : string) (_ : LanguageService)
               (fs : FileService.t),
               match FileService.get fs file with
               | String "x" rest => rest
               | other => other
               end in
  ∃ w',
    codeFixLoop acf 5 Util.ls Util.file "xxy" (mkWorld Util.fs []) = (Ok "y", w')
    ∧ FileService.get (store w') Util.file = "y"
    ∧ acf fixIdDelete Util.file Util.ls (store w') = "y".
Proof.
  intros acf.
  set (w' := (codeFixLoop acf 5 Util.ls Util.file "xxy" (mkWorld Util.fs [])).2).
  assert (Hrun : codeFixLoop acf 5 Util.ls Util.file "xxy" (mkWorld Util.fs [])
                 = (Ok "y", w'))
    by (vm_compute; reflexivity).
  destruct (codeFixLoop_stops_at_fixed_point _ _ _ _ _ _ _ _ Hrun)
    as (Hget & Hfix & _).
  exists w'. auto.
Defined.

Lemma forFiles_without_codeFix ts acf1 acf2 fuel ls program del files :
  ∀ w, forFiles ts acf1 fuel ls program del false files w
       = forFiles ts acf2 fuel ls program del false files w.
Proof.
  induction files as [|file rest IH]; intros w; simpl; [reflexivity |].
  rewrite !M_bind_unfold.
  change (processFile ts acf1 fuel ls program del false file w)
    with (processFile ts acf2 fuel ls program del false file w).
  destruct (processFile ts acf2 fuel ls program del false file w) as [[[]| |] w1];
    [apply IH | reflexivity | reflexivity].
Qed.

(** X14.  With [enableCodeFix] off the code-fix service is never consulted:
    two runs that differ only in what [applyCodeFix] would answer end in the
    same result, the same store and the same notifications. *)
Theorem removeUnusedExport_without_codeFix_ignores_the_fix
    ts acf1 acf2 fuel targetFile ls del fs :
  run (removeUnusedExport ts acf1 fuel targetFile ls del false) fs
  = run (removeUnusedExport ts acf2 fuel targetFile ls del false) fs.
Proof.
  unfold run, removeUnusedExport. rewrite !M_bind_unfold. simpl.
  destruct (getProgram ls fs); [apply forFiles_without_codeFix | reflexivity].
Qed.

(** *** Target files the program does not have *)

Lemma forFiles_skips_missing ts acf fuel ls program del codeFix files :
  ∀ w, forFiles ts acf fuel ls program del codeFix files w
       = forFiles ts acf fuel ls program del codeFix
           (List.filter (λ f, bool_decide (is_Some (getSourceFile program f))) files)
           w.
Proof.
  induction files as [|file rest IH]; intros w; simpl; [reflexivity |].
  destruct (getSourceFile program file) as [sf|] eqn:Hsf.
  - rewrite bool_decide_eq_true_2 by eauto. simpl. rewrite !M_bind_unfold.
    destruct (processFile ts acf fuel ls program del codeFix file w)
      as [[[]| |] w1]; [apply IH | reflexivity | reflexivity].
  - rewrite bool_decide_eq_false_2 by (intros [x Hx]; discriminate).
    rewrite M_bind_unfold. unfold processFile at 1. rewrite Hsf. simpl.
    apply IH.
Qed.

(** X15.  A target file the program has no source file for is skipped
    silently: a run over a list of targets is the run over the targets the
    program has, in the same order; the missing ones cause no error, no
    write and no notification. *)
Theorem removeUnusedExport_skips_missing_targets
    ts acf fuel targetFile ls del codeFix fs program :
  getProgram ls fs = Some program →
  run (removeUnusedExport ts acf fuel targetFile ls del codeFix) fs
  = run (removeUnusedExport ts acf fuel
           (List.filter (λ f, bool_decide (is_Some (getSourceFile program f)))
                        targetFile)
           ls del codeFix) fs.
Proof.
  intros Hprogram. unfold run, removeUnusedExport. rewrite !M_bind_unfold. simpl.
  rewrite Hprogram. apply forFiles_skips_missing.
Qed.

(** A run over util.ts and a file nobody has is the run over util.ts. *)
Lemma removeUnusedExport_skips_missing_targets_witness :
  run (removeUnusedExport Scripted.compiler Scripted.noCodeFix 5
         ["/gone.ts"; Util.file] Util.ls false false) Util.fs
  = run (removeUnusedExport Scripted.compiler Scripted.noCodeFix 5
           [Util.file] Util.ls false false) Util.fs.
Proof.
  apply (removeUnusedExport_skips_missing_targets
           Scripted.compiler Scripted.noCodeFix 5 ["/gone.ts"; Util.file]
           Util.ls false false Util.fs _ eq_refl).
Defined.

(* ===================================================================== *)
(** ** Further properties of the earlier driver *)
(* ===================================================================== *)

Lemma countSelects_true node count :
  RemoveExport.countSelects node count = true →
  count = 1%nat ∨ (kind node = ExportSpecifier ∧ count = 2%nat).
Proof.
  unfold RemoveExport.countSelects.
  destruct (isKind (kind node) ExportSpecifier) eqn:Hkind; simpl.
  - destruct (bool_decide (count = 2%nat)) eqn:Htwo.
    + intros _. right. apply isKind_true in Hkind.
      apply bool_decide_eq_true in Htwo. auto.
    + destruct (bool_decide (count = 1%nat)) eqn:Hone; [| discriminate].
      intros _. left. apply bool_decide_eq_true in Hone. exact Hone.
  - destruct (bool_decide (count = 1%nat)) eqn:Hone; [| discriminate].
    intros _. left. apply bool_decide_eq_true in Hone. exact Hone.
Qed.

Lemma forEachM_selects (Q : Node → Prop)
    (f : Node → option Node → Result (option Node)) children :
  Forall (λ c, ∀ result r, f c result = Ok (Some r) →
               result = Some r ∨ (Q r ∧ (r = c ∨ Descendant r c))) children →
  ∀ result r, forEachM f children result = Ok (Some r) →
              result = Some r
              ∨ (Q r ∧ ∃ c, In c children ∧ (r = c ∨ Descendant r c)).
Proof.
  induction 1 as [|c rest Hc _ IH]; simpl; intros result r Hrun.
  - injection Hrun as ->. auto.
  - apply bind_Ok_inv in Hrun as (r1 & H1 & H2).
    destruct (IH _ _ H2) as [-> | (HQ & c' & Hin & Hc')].
    + destruct (Hc _ _ H1) as [-> | [HQ Hr]]; [auto |]. right. eauto.
    + right. eauto 6.
Qed.

Lemma old_visit_selects ts ls fs sf node :
  ∀ result r,
    RemoveExport.visit ts ls fs sf node result = Ok (Some r) →
    result = Some r
    ∨ (selectedByCount ts ls fs sf r ∧ (r = node ∨ Descendant r node)).
Proof.
  induction node as [node IH] using Node_ind. intros result r.
  rewrite old_visit_unfold.
  assert (Hchildren :
            forEachM (RemoveExport.visit ts ls fs sf) (forEachChild node) result
            = Ok (Some r) →
            result = Some r
            ∨ (selectedByCount ts ls fs sf r ∧ (r = node ∨ Descendant r node))).
  { intros Hrun.
    apply (forEachM_selects (selectedByCount ts ls fs sf)) in Hrun
      as [-> | (HQ & c & Hin & [-> | Hd])]; auto.
    - right. split; [exact HQ |]. right. constructor. exact Hin.
    - right. split; [exact HQ |]. right. eapply Descendant_below; eauto. }
  destruct result as [r0|]; [intros [= ->]; auto |].
  destruct (RemoveExport.isTarget ts sf node) eqn:Htarget; [| exact Hchildren].
  intros Hrun. apply bind_Ok_inv in Hrun as (found & Hfound & Hrun).
  destruct found as [refs|]; [| discriminate].
  destruct (RemoveExport.countSelects _ _) eqn:Hcount; [| exact (Hchildren Hrun)].
  injection Hrun as <-. right. split; [| auto].
  split; [exact Htarget |]. exists refs. split; [exact Hfound |].
  apply countSelects_true, Hcount.
Qed.

(** X16.  What [getFirstUnusedExport] returns is a node below the source
    file's root that the earlier [isTarget] accepts (exported, no skip
    marker), for which the reference index answered, and whose references
    count exactly one, or exactly two for an export specifier.  A node
    referenced more often is never returned. *)
Theorem getFirstUnusedExport_returns_a_counted_target ts sf ls fs item :
  RemoveExport.getFirstUnusedExport ts sf ls fs = Ok (Some item) →
  Descendant item (sourceNode sf)
  ∧ RemoveExport.isTarget ts sf item = true
  ∧ ∃ refs,
      RemoveExport.findReferences ls fs sf item = Ok (Some refs)
      ∧ (RemoveExport.referenceCount refs = 1%nat
         ∨ (kind item = ExportSpecifier
            ∧ RemoveExport.referenceCount refs = 2%nat)).
Proof.
  unfold RemoveExport.getFirstUnusedExport. intros Hrun.
  apply (forEachM_selects (selectedByCount ts ls fs sf)) in Hrun
    as [Hnone | ([Htarget Hrefs] & c & Hin & Hc)]; [discriminate | |].
  - split; [| auto].
    destruct Hc as [-> | Hd]; [constructor; exact Hin |].
    eapply Descendant_below; eauto.
  - apply Forall_forall. intros c _ result r. apply old_visit_selects.
Qed.

(** In util.ts the earlier driver picks [helper], referenced once. *)
Lemma getFirstUnusedExport_returns_a_counted_target_witness :
  Descendant Util.helper (sourceNode Util.sourceFile)
  ∧ RemoveExport.isTarget Scripted.compiler Util.sourceFile Util.helper = true.
Proof.
  destruct (getFirstUnusedExport_returns_a_counted_target
              Scripted.compiler Util.sourceFile Util.ls Util.fs Util.helper
              eq_refl) as (Hbelow & Htarget & _).
  auto.
Defined.

(** *** What [removeExport] can throw and what it writes *)

Lemma old_findReferences_on_target ts ls fs sf node :
  RemoveExport.isTarget ts sf node = true →
  ∃ found, RemoveExport.findReferences ls fs sf node = Ok found.
Proof.
  unfold RemoveExport.isTarget, RemoveExport.findReferences.
  destruct (kind node); simpl; try discriminate; intros _;
    try (eexists; reflexivity).
  - destruct (RemoveExport.findFirstNodeOfKind node VariableDeclaration);
      eexists; reflexivity.
  - destruct (List.find _ _); eexists; reflexivity.
Qed.

Lemma old_visit_never_throws ts ls fs sf node :
  ∀ result msg, RemoveExport.visit ts ls fs sf node result ≠ Throw msg.
Proof.
  induction node as [node IH] using Node_ind. intros result msg.
  rewrite old_visit_unfold.
  assert (Hchildren :
            forEachM (RemoveExport.visit ts ls fs sf) (forEachChild node) result
            ≠ Throw msg).
  { intros Hrun.
    apply (forEachM_throws (λ _, False)) in Hrun; [exact Hrun |].
    eapply Forall_impl; [exact IH |]. simpl. intros c Hc s msg' H.
    exact (Hc s msg' H). }
  destruct result as [r0|]; [discriminate |].
  destruct (RemoveExport.isTarget ts sf node) eqn:Htarget; [| exact Hchildren].
  destruct (old_findReferences_on_target ts ls fs sf node Htarget) as (found & ->).
  simpl. destruct found as [refs|]; [| discriminate].
  destruct (RemoveExport.countSelects _ _); [discriminate | exact Hchildren].
Qed.

Lemma removeItem_writes ts sf ls fs targetFile item w :
  selectedByCount ts ls fs sf item →
  ∃ content,
    RemoveExport.removeItem sf targetFile item w
    = (Ok tt, mkWorld (FileService.set (store w) targetFile content) (log w)).
Proof.
  intros [Htarget _]. unfold RemoveExport.removeItem.
  destruct (isKind (kind item) ExportAssignment || isKind (kind item) ExportSpecifier)
    eqn:Hkind; [eexists; reflexivity |].
  unfold RemoveExport.isTarget in Htarget. rewrite Hkind in Htarget.
  destruct (_ || _) in Htarget; [| discriminate].
  destruct (RemoveExport.findFirstNodeOfKind item ExportKeyword);
    [eexists; reflexivity | discriminate].
Qed.

(** X17.  [removeExport] throws only when the program or the target's source
    file is missing.  Its other two errors cannot occur: whatever the
    classifier yields is handled by [findReferences], and a yielded
    declaration always has the export keyword the edit looks for. *)
Theorem removeExport_throws_only ts fuel targetFile ls w msg w' :
  RemoveExport.removeExport ts fuel targetFile ls w = (Throw msg, w') →
  msg = "program not found" ∨ msg = "source file not found".
Proof.
  revert w. induction fuel as [|fuel IH]; intros w; simpl; [discriminate |].
  rewrite M_bind_unfold. simpl.
  destruct (getProgram ls (store w)) as [program|]; [| intros [= <- _]; auto].
  destruct (getSourceFile program targetFile) as [sf|]; [| intros [= <- _]; auto].
  rewrite M_bind_unfold. unfold lift.
  destruct (RemoveExport.getFirstUnusedExport ts sf ls (store w))
    as [[item|]| msg' |] eqn:Hfirst; try discriminate.
  - assert (Hselected : selectedByCount ts ls (store w) sf item).
    { pose proof Hfirst as Hvisited.
      unfold RemoveExport.getFirstUnusedExport in Hvisited.
      apply (forEachM_selects (selectedByCount ts ls (store w) sf)) in Hvisited
        as [Hnone | (Hselected & _)]; [discriminate | exact Hselected |].
      apply Forall_forall. intros c _ result r. apply old_visit_selects. }
    destruct (removeItem_writes ts sf ls (store w) targetFile item w Hselected)
      as (content & Hwrite).
    rewrite M_bind_unfold, Hwrite. apply IH.
  - unfold RemoveExport.getFirstUnusedExport in Hfirst.
    apply (forEachM_throws (λ _, False)) in Hfirst; [destruct Hfirst |].
    apply Forall_forall. intros c _ s msg'' H.
    exact (old_visit_never_throws _ _ _ _ _ _ _ H).
Qed.

(** A service without a program. *)
Lemma removeExport_throws_only_witness :
  RemoveExport.removeExport Scripted.compiler 3 Util.file
    (mkLanguageService (λ _, None) Util.index) (mkWorld Util.fs [])
  = (Throw "program not found", mkWorld Util.fs [])
  ∧ ("program not found" = "program not found"
     ∨ "program not found" = "source file not found").
Proof.
  split; [reflexivity |].
  apply (removeExport_throws_only
           Scripted.compiler 3 Util.file
           (mkLanguageService (λ _, None) Util.index) (mkWorld Util.fs [])
           "program not found" (mkWorld Util.fs [])).
  reflexivity.
Defined.

(** X18.  [removeExport] writes the target file only, and writes it only
    when the classifier yields something: every other file keeps its
    content however the run ends, and on a file with no unused export the
    run completes with the store exactly as it was. *)
Theorem removeExport_writes_only_the_target ts fuel targetFile ls w :
  (∀ r w', RemoveExport.removeExport ts fuel targetFile ls w = (r, w') →
           ∀ f, f ≠ targetFile → store w' !! f = store w !! f)
  ∧ (∀ program sf,
       getProgram ls (store w) = Some program →
       getSourceFile program targetFile = Some sf →
       RemoveExport.getFirstUnusedExport ts sf ls (store w) = Ok None →
       RemoveExport.removeExport ts (S fuel) targetFile ls w = (Ok tt, w)).
Proof.
  split.
  - assert (Htouch : touchesOnly [targetFile]
                       (RemoveExport.removeExport ts fuel targetFile ls)).
    { clear w. induction fuel as [|fuel IH]; simpl; [apply touchesOnly_lift |].
      apply touchesOnly_bind; [apply touchesOnly_getStore | intros fs].
      destruct (getProgram ls fs) as [program|]; [| apply touchesOnly_lift].
      destruct (getSourceFile program targetFile) as [sf|];
        [| apply touchesOnly_lift].
      apply touchesOnly_bind; [apply touchesOnly_lift | intros first].
      destruct first as [item|]; [| apply touchesOnly_ret].
      apply touchesOnly_bind; [| intros _; exact IH].
      unfold RemoveExport.removeItem.
      destruct (_ || _); [apply touchesOnly_setFile; left; reflexivity |].
      destruct (RemoveExport.findFirstNodeOfKind item ExportKeyword);
        [apply touchesOnly_setFile; left; reflexivity | apply touchesOnly_lift]. }
    intros r w' Hrun f Hf. apply (Htouch _ _ _ Hrun).
    intros [<- | []]. contradiction.
  - intros program sf Hprogram Hsf Hnone. simpl.
    rewrite M_bind_unfold. simpl. rewrite Hprogram, Hsf.
    rewrite M_bind_unfold. unfold lift. rewrite Hnone. reflexivity.
Qed.

(** The earlier driver on util.ts: [helper] loses its export keyword and
    main.ts is not touched. *)
Lemma removeExport_writes_only_the_target_witness :
  let r := RemoveExport.removeExport Scripted.compiler 1 Util.file Util.ls
             (mkWorld Util.fs []) in
  store r.2 !! "/main.ts" = Util.fs !! "/main.ts"
  ∧ FileService.get (store r.2) Util.file
    = " function helper(){}" +:+ String "010" "" +:+ "export function shared(){}".
Proof.
  intros r. split; [| vm_compute; reflexivity].
  apply (proj1 (removeExport_writes_only_the_target
                  Scripted.compiler 1 Util.file Util.ls (mkWorld Util.fs []))
               r.1 r.2 (surjective_pairing _)).
  discriminate.
Defined.

(* ===================================================================== *)
(** ** Where the collected candidates sit *)
(* ===================================================================== *)

Lemma visit_stands_free ts fuel ls fs program sf root node :
  ∀ anc st st',
    standsFree root (mkLocated node anc) →
    Forall (standsFree root) (nodes st) →
    visit ts fuel ls fs program sf anc node st = Ok st' →
    Forall (standsFree root) (nodes st').
Proof.
  induction node as [node IH] using Node_ind.
  intros anc st st' Hnode Hst. rewrite visit_unfold.
  destruct (isWildcard node) eqn:Hwild; [intros [= <-]; exact Hst |].
  destruct (isTarget node) eqn:Htarget.
  - intros H. apply visitTarget_cases in H as [-> | [-> | [-> _]]]; auto.
    simpl. apply Forall_app. split; [exact Hst |].
    apply List.Forall_cons; [exact Hnode | apply List.Forall_nil].
  - apply (forEachM_inv (λ s, Forall (standsFree root) (nodes s))); [| exact Hst].
    rewrite Forall_forall in IH. apply Forall_forall. intros c Hc s s' Hs.
    apply (IH c Hc); [| exact Hs].
    destruct Hnode as (Hpath & (inner & Hinner) & Hall). simpl in *.
    split; [| split].
    + simpl. split; [apply list_elem_of_In, Hc | exact Hpath].
    + exists (node :: inner). simpl. rewrite Hinner. reflexivity.
    + simpl. apply List.Forall_cons; [auto | exact Hall].
Qed.

(** X19.  Every candidate [getUnusedExports] collects hangs from the root of
    the source file by a chain of parents none of which is itself a
    candidate or a wildcard re-export: the visitor does not look inside a
    candidate, so collected candidates are never nested in one another, and
    the [parent] and [parent.parent] the edits read are the nodes the
    visitor came through. *)
Theorem getUnusedExports_candidates_are_not_nested ts fuel ls sf fs scan :
  isTarget (sourceNode sf) = false →
  isWildcard (sourceNode sf) = false →
  getUnusedExports ts fuel ls sf fs = Ok scan →
  Forall (λ c, isPath (self c) (ancestors c)
               ∧ (∃ inner, ancestors c = inner ++ [sourceNode sf])
               ∧ Forall (λ a, isTarget a = false ∧ isWildcard a = false)
                        (ancestors c))
         (nodes scan).
Proof.
  intros Htarget Hwild. unfold getUnusedExports.
  destruct (getProgram ls fs) as [program|]; [| discriminate].
  apply (forEachM_inv (λ s, Forall (standsFree (sourceNode sf)) (nodes s))).
  - apply Forall_forall. intros c Hc s s'. apply visit_stands_free.
    split; [| split]; simpl.
    + split; [apply list_elem_of_In, Hc | exact I].
    + exists []. reflexivity.
    + apply List.Forall_cons; [split; assumption | apply List.Forall_nil].
  - apply List.Forall_nil.
Qed.

(** names.ts with every name unused: three specifiers, each under the clause
    and the declaration. *)
Lemma getUnusedExports_candidates_are_not_nested_witness :
  ∃ scan,
    getUnusedExports ExportList.compiler 5 (ExportList.ls [])
      (ExportList.sourceFileFor ExportList.file ["a"; "b"; "c"] None)
      ExportList.fs = Ok scan
    ∧ length (nodes scan) = 3%nat
    ∧ Forall (λ c, isPath (self c) (ancestors c)) (nodes scan).
Proof.
  destruct (getUnusedExports ExportList.compiler 5 (ExportList.ls [])
              (ExportList.sourceFileFor ExportList.file ["a"; "b"; "c"] None)
              ExportList.fs) as [scan| |] eqn:Hscan; try discriminate.
  exists scan. split; [reflexivity |]. split.
  - vm_compute in Hscan. injection Hscan as <-. reflexivity.
  - eapply Forall_impl.
    + apply (getUnusedExports_candidates_are_not_nested
               ExportList.compiler 5 (ExportList.ls [])
               (ExportList.sourceFileFor ExportList.file ["a"; "b"; "c"] None)
               ExportList.fs scan eq_refl eq_refl Hscan).
    + simpl. intros c (Hpath & _). exact Hpath.
Defined.
